(** * cHAZe: transform_to_firestore.py

    A shallow embedding of [cHAZe_data_JSON/transform_to_firestore.py] and
    the properties of its retailer classifier, text normalizer, geocode
    cache, coordinate lookup, store phase and price aggregation.

    Conventions of the embedding.
    - A Python [str] is the list of its code points ([pystr]); literals
      of the source that are plain ASCII are written [cps "..."].
    - JSON values that the script only passes along are [jval]s; a JSON
      object is an association list in insertion order.
    - The exports follow the data model: the text fields of a store, of a
      raw price record and of a product hold strings; a key that is absent
      is [None] and takes the default the source gives to [dict.get].
    - Code that raises, reads files, mutates the cache dictionary or
      calls the geocoding service runs in the monad [M], which threads
      the [world] and carries the exception.
    - [str.lower], [unicodedata.normalize('NFD', _)] and the geocoding
      service are not part of the script: they are variables of the
      section [Script]. *)

From Stdlib Require Import ZArith NArith List String Ascii Lia Bool Permutation.
From Stdlib Require Import Sorted.
From stdpp Require Import gmap.
Import ListNotations.

#[local] Open Scope N_scope.
#[local] Set Default Proof Using "Type".
#[local] Set Warnings "-register-all".
#[local] Set Warnings "-notation-overridden".

(** ** Python strings *)

Definition pystr := list N.

(** The code points of an ASCII literal. *)
Definition cps (s : string) : pystr :=
  List.map N_of_ascii (list_ascii_of_string s).

Definition pystr_eqb (a b : pystr) : bool := bool_decide (a = b).

(** [str.isspace] on one code point: the white-space set of CPython. *)
Definition isspace (c : N) : bool :=
  ((0x09 <=? c) && (c <=? 0x0D)) || ((0x1C <=? c) && (c <=? 0x20))
  || (c =? 0x85) || (c =? 0xA0) || (c =? 0x1680)
  || ((0x2000 <=? c) && (c <=? 0x200A))
  || (c =? 0x2028) || (c =? 0x2029) || (c =? 0x202F) || (c =? 0x205F)
  || (c =? 0x3000).

Fixpoint lstrip (s : pystr) : pystr :=
  match s with
  | [] => []
  | c :: s' => if isspace c then lstrip s' else s
  end.

Definition rstrip (s : pystr) : pystr := rev (lstrip (rev s)).

(** [s.strip()] *)
Definition strip (s : pystr) : pystr := rstrip (lstrip s).

Fixpoint startswith (p s : pystr) : bool :=
  match p, s with
  | [], _ => true
  | _ :: _, [] => false
  | a :: p', b :: s' => (a =? b) && startswith p' s'
  end.

(** [p in s] for strings: [p] occurs in [s] as a contiguous run. *)
Fixpoint contains (p s : pystr) : bool :=
  startswith p s ||
  match s with
  | [] => false
  | _ :: s' => contains p s'
  end.

(** [sep.join(parts)] *)
Fixpoint join (sep : pystr) (parts : list pystr) : pystr :=
  match parts with
  | [] => []
  | [w] => w
  | w :: rest => w ++ sep ++ join sep rest
  end.

(** Puts [c] in front of the first word of a list of words. *)
Definition cons_word (c : N) (ws : list pystr) : list pystr :=
  match ws with
  | [] => [[c]]
  | w :: ws' => (c :: w) :: ws'
  end.

(** [s.split()] with no argument: the maximal runs of code points that
    are not white space, in order; no empty string is produced. *)
Fixpoint split (s : pystr) : list pystr :=
  match s with
  | [] => []
  | c :: s' =>
      if isspace c then split s'
      else match s' with
           | [] => [[c]]
           | d :: _ => if isspace d then [c] :: split s'
                       else cons_word c (split s')
           end
  end.

(** [s.replace(c, r)] for a pattern [c] of one code point. *)
Definition replace (c : N) (r : pystr) (s : pystr) : pystr :=
  flat_map (fun x => if x =? c then r else [x]) s.

(** Code-point order on strings, the order of [<] on [str]. *)
Fixpoint str_ltb (a b : pystr) : bool :=
  match a, b with
  | _, [] => false
  | [], _ :: _ => true
  | x :: a', y :: b' => (x <? y) || ((x =? y) && str_ltb a' b')
  end.

(** ** JSON values *)

Inductive jval :=
| JNull
| JBool (b : bool)
| JInt (z : Z)
| JFloat (m e : Z)          (* the float m * 2^e *)
| JStr (s : pystr)
| JList (l : list jval)
| JDict (d : list (pystr * jval)).

Definition dict := list (pystr * jval).

(** The float literal [0.0]. *)
Definition zero_float : jval := JFloat 0 0.

(** [d.get(k)] as an option: [None] when the key is absent. *)
Fixpoint dget (k : pystr) (d : dict) : option jval :=
  match d with
  | [] => None
  | (k', v) :: d' => if pystr_eqb k' k then Some v else dget k d'
  end.

(** Truth value of a JSON value in a condition. *)
Definition truthy (v : jval) : bool :=
  match v with
  | JNull => false
  | JBool b => b
  | JInt z => negb (z =? 0)%Z
  | JFloat m _ => negb (m =? 0)%Z
  | JStr s => negb (pystr_eqb s [])
  | JList l => match l with [] => false | _ => true end
  | JDict d => match d with [] => false | _ => true end
  end.

(** [v == 'OK'] *)
Definition is_OK (v : jval) : bool :=
  match v with
  | JStr s => pystr_eqb s (cps "OK")
  | _ => false
  end.

(** A surrogate code point: a string that holds one cannot be encoded
    as UTF-8, so [json.dump(..., ensure_ascii=False)] to a file raises
    UnicodeEncodeError on it. *)
Definition surrogate (c : N) : bool := (0xD800 <=? c) && (c <=? 0xDFFF).

Definition encodable_str (s : pystr) : bool :=
  forallb (fun c => negb (surrogate c)) s.

Fixpoint encodable (v : jval) : bool :=
  match v with
  | JStr s => encodable_str s
  | JList l => forallb encodable l
  | JDict d => forallb (fun kv => let '(k, x) := kv in
                                  encodable_str k && encodable x) d
  | _ => true
  end.

Definition encodable_dict (d : dict) : bool := encodable (JDict d).

Definition encodable_field (v : option jval) : bool :=
  match v with
  | Some x => encodable x
  | None => true
  end.

(** ** Records of the data model *)

(** The dictionary returned by [get_coordinates_for_store]. *)
Record coords := { latitude : jval; longitude : jval }.

Definition zero_coords : coords :=
  {| latitude := zero_float; longitude := zero_float |}.

Record store := {
  st_store_id : option pystr;
  st_name : option pystr;
  st_address : option pystr;
  st_location_text : option pystr;
  st_geo_point : option jval;
  st_retailer_id : option pystr;
  st_coordinates : option coords;
  st_other : dict                  (* the keys the script never touches *)
}.

Record raw_price := {
  rp_store_id : option pystr;
  rp_product_id : option pystr;
  rp_price : option jval;
  rp_currency : option jval;
  rp_in_stock : option jval;
  rp_discount_active : option jval
}.

Record product := {
  p_product_id : pystr;
  p_name : option jval;
  p_image_url : option jval;
  p_category : option jval;
  p_product_type : option jval;
  p_keywords : option jval;
  p_general_unit : option jval
}.

Record retailer_price := {
  doc_id : pystr;
  retailer_id : pystr;
  product_id : pystr;
  price : jval;
  currency : jval;
  in_stock : jval;
  discount_active : jval;
  product_name : jval;
  product_image : jval;
  category : jval;
  product_type : jval;
  keywords : jval;
  unit_ : jval;
  last_updated : pystr
}.

(** ** Files, network and the cache dictionary *)

Inductive exn :=
| FileNotFoundError | OSError | JSONDecodeError
| AttributeError | KeyError | TypeError | IndexError
| UnicodeEncodeError.

Inductive result (A : Type) :=
| Ok (a : A)
| Raise (e : exn).
Arguments Ok {A} a.
Arguments Raise {A} e.

(** What opening and parsing a JSON file gives. *)
Inductive file (A : Type) :=
| Absent                 (* no such file *)
| Unreadable             (* the file exists, opening or reading it fails *)
| Malformed              (* the contents are not JSON *)
| Holds (a : A).         (* the contents parse to [a] *)
Arguments Absent {A}.
Arguments Unreadable {A}.
Arguments Malformed {A}.
Arguments Holds {A} a.

(** One call of the geocoding endpoint. *)
Record request := { req_address : pystr; req_key : pystr }.

(** What [urlopen] and [json.loads] give for a request. *)
Inductive response :=
| NoAnswer               (* any exception inside the try block *)
| Answer (data : jval).

Record world := {
  cache : gmap pystr jval;                  (* the dictionary [cache] refers to *)
  requests : list request;                  (* the calls issued so far *)
  geocode_cache_file : file (gmap pystr jval);
  geocode_cache_file_writable : bool;
  in_stores : file (list store);
  out_stores : file (list store);
  out_stores_writable : bool
}.

Definition M (A : Type) : Type := world -> result A * world.

Definition ret {A} (a : A) : M A := fun w => (Ok a, w).

Definition bind {A B} (m : M A) (k : A -> M B) : M B :=
  fun w => match m w with
           | (Ok a, w') => k a w'
           | (Raise e, w') => (Raise e, w')
           end.

Definition raise {A} (e : exn) : M A := fun w => (Raise e, w).

(** [try: m  except Exception: h] *)
Definition catch {A} (m : M A) (h : exn -> M A) : M A :=
  fun w => match m w with
           | (Ok a, w') => (Ok a, w')
           | (Raise e, w') => h e w'
           end.

(** A pure computation that may raise. *)
Definition lift {A} (r : result A) : M A := fun w => (r, w).

Notation "x <- m ;; k" := (bind m (fun x => k))
  (at level 100, m at next level, right associativity).
Notation "m ;;; k" := (bind m (fun _ => k))
  (at level 100, right associativity).

(** [for x in xs: ...] collecting the updated elements. *)
Fixpoint for_each {A B} (f : A -> M B) (xs : list A) : M (list B) :=
  match xs with
  | [] => ret []
  | x :: xs' => y <- f x ;; ys <- for_each f xs' ;; ret (y :: ys)
  end.

Definition get_cache : M (gmap pystr jval) := fun w => (Ok (cache w), w).

(** The world after the cache dictionary has become [c]. *)
Definition with_cache (c : gmap pystr jval) (w : world) : world :=
  {| cache := c; requests := requests w;
     geocode_cache_file := geocode_cache_file w;
     geocode_cache_file_writable := geocode_cache_file_writable w;
     in_stores := in_stores w; out_stores := out_stores w;
     out_stores_writable := out_stores_writable w |}.

(** The world after one more call of the endpoint. *)
Definition with_request (rq : request) (w : world) : world :=
  {| cache := cache w; requests := requests w ++ [rq];
     geocode_cache_file := geocode_cache_file w;
     geocode_cache_file_writable := geocode_cache_file_writable w;
     in_stores := in_stores w; out_stores := out_stores w;
     out_stores_writable := out_stores_writable w |}.

(** The world after the cache file has been written with [c]. *)
Definition with_geocode_cache_file (c : gmap pystr jval) (w : world) : world :=
  {| cache := cache w; requests := requests w;
     geocode_cache_file := Holds c;
     geocode_cache_file_writable := geocode_cache_file_writable w;
     in_stores := in_stores w; out_stores := out_stores w;
     out_stores_writable := out_stores_writable w |}.

(** The world after a write of the cache file has stopped short: the
    file was truncated on opening and holds no complete JSON text. *)
Definition with_truncated_geocode_cache_file (w : world) : world :=
  {| cache := cache w; requests := requests w;
     geocode_cache_file := Malformed;
     geocode_cache_file_writable := geocode_cache_file_writable w;
     in_stores := in_stores w; out_stores := out_stores w;
     out_stores_writable := out_stores_writable w |}.

(** Every key and value of the mapping can be encoded. *)
Definition encodable_map (c : gmap pystr jval) : bool :=
  forallb (fun kv => encodable_str (fst kv) && encodable (snd kv))
          (map_to_list c).

(** The world after the store output has been written. *)
Definition with_out_stores (stores : list store) (w : world) : world :=
  {| cache := cache w; requests := requests w;
     geocode_cache_file := geocode_cache_file w;
     geocode_cache_file_writable := geocode_cache_file_writable w;
     in_stores := in_stores w; out_stores := Holds stores;
     out_stores_writable := out_stores_writable w |}.

Definition set_cache (c : gmap pystr jval) : M unit :=
  fun w => (Ok tt, with_cache c w).

Definition log_request (rq : request) : M unit :=
  fun w => (Ok tt, with_request rq w).

(** [path.exists()] *)
Definition exists_ {A} (f : file A) : bool :=
  match f with
  | Absent => false
  | _ => true
  end.

(** [with path.open('r') as f: json.load(f)] *)
Definition json_load {A} (f : file A) : result A :=
  match f with
  | Absent => Raise FileNotFoundError
  | Unreadable => Raise OSError
  | Malformed => Raise JSONDecodeError
  | Holds a => Ok a
  end.

(** [with GEOCODE_CACHE_FILE.open('w', encoding='utf-8') as f:
    json.dump(c, f, ensure_ascii=False)].  Opening fails on a file that
    cannot be written and leaves it alone; opening truncates the file,
    and the encoder then raises on a lone surrogate, which leaves the
    file cut short. *)
Definition dump_geocode_cache_file (c : gmap pystr jval) : M unit :=
  fun w =>
    if geocode_cache_file_writable w then
      if encodable_map c
      then (Ok tt, with_geocode_cache_file c w)
      else (Raise UnicodeEncodeError, with_truncated_geocode_cache_file w)
    else (Raise OSError, w).

(** [with OUT_STORES.open('w', encoding='utf-8') as f:
    json.dump(stores, f, ensure_ascii=False, indent=2)].
    [out_stores_writable] says that this write goes through; of a write
    that does not, the statements below use only that it raises. *)
Definition dump_out_stores (stores : list store) : M unit :=
  fun w =>
    if out_stores_writable w
    then (Ok tt, with_out_stores stores w)
    else (Raise OSError, w).

(** A case mapping for the examples: [str.lower] on Basic Latin and
    Latin-1 Supplement, where it acts code point by code point. *)
Definition lower_latin1_cp (c : N) : N :=
  if ((0x41 <=? c) && (c <=? 0x5A))
     || ((0xC0 <=? c) && (c <=? 0xDE) && negb (c =? 0xD7))
  then c + 0x20 else c.

Definition lower_latin1 (s : pystr) : pystr := List.map lower_latin1_cp s.

(** A decomposition for the examples: canonical decomposition of
    the accented letters of Latin-1 Supplement (capital letter, base,
    combining mark); the small letters are 0x20 above. *)
Definition latin1_accents : list (N * (N * N)) :=
  [ (0xC0, (0x41, 0x300)); (0xC1, (0x41, 0x301)); (0xC2, (0x41, 0x302));
    (0xC3, (0x41, 0x303)); (0xC4, (0x41, 0x308)); (0xC5, (0x41, 0x30A));
    (0xC7, (0x43, 0x327));
    (0xC8, (0x45, 0x300)); (0xC9, (0x45, 0x301)); (0xCA, (0x45, 0x302));
    (0xCB, (0x45, 0x308));
    (0xCC, (0x49, 0x300)); (0xCD, (0x49, 0x301)); (0xCE, (0x49, 0x302));
    (0xCF, (0x49, 0x308));
    (0xD1, (0x4E, 0x303));
    (0xD2, (0x4F, 0x300)); (0xD3, (0x4F, 0x301)); (0xD4, (0x4F, 0x302));
    (0xD5, (0x4F, 0x303)); (0xD6, (0x4F, 0x308));
    (0xD9, (0x55, 0x300)); (0xDA, (0x55, 0x301)); (0xDB, (0x55, 0x302));
    (0xDC, (0x55, 0x308)); (0xDD, (0x59, 0x301)) ].

Fixpoint assoc_N {A} (c : N) (t : list (N * A)) : option A :=
  match t with
  | [] => None
  | (k, v) :: t' => if k =? c then Some v else assoc_N c t'
  end.

Definition nfd_latin1_cp (c : N) : pystr :=
  match assoc_N c latin1_accents with
  | Some (b, m) => [b; m]
  | None =>
      if c =? 0xFF then [0x79; 0x308]
      else if (0xE0 <=? c) && (c <=? 0xFE) then
        match assoc_N (c - 0x20) latin1_accents with
        | Some (b, m) => [b + 0x20; m]
        | None => [c]
        end
      else [c]
  end.

(** [normalize('NFD', s)] on strings of Basic Latin and Latin-1
    Supplement, where no reordering of marks can occur. *)
Definition nfd_latin1 (s : pystr) : pystr := flat_map nfd_latin1_cp s.

(** A service that refuses every request. *)
Definition service_denied (_ : list request) (_ : request) : response :=
  Answer (JDict [(cps "status", JStr (cps "REQUEST_DENIED"));
                 (cps "results", JList [])]).

(** A service that locates every address at the same point. *)
Definition service_found (_ : list request) (_ : request) : response :=
  Answer (JDict
    [ (cps "status", JStr (cps "OK"));
      (cps "results",
       JList [ JDict [ (cps "geometry",
                        JDict [ (cps "location",
                                 JDict [ (cps "lat", JFloat 93 (-1));
                                         (cps "lng", JFloat 53 (-3)) ]);
                                (cps "location_type", JStr (cps "ROOFTOP")) ]) ] ]) ]).

(** A service that refuses the first request and locates the later
    ones. *)
Definition service_denies_first (history : list request) (rq : request)
  : response :=
  match history with
  | [] => service_denied history rq
  | _ => service_found history rq
  end.

(** A service that cannot be reached. *)
Definition service_down (_ : list request) (_ : request) : response :=
  NoAnswer.

(** A service whose answer is not a JSON object. *)
Definition service_garbled (_ : list request) (_ : request) : response :=
  Answer (JList []).

(** ** Sample data *)

Definition lac_store : store :=
  {| st_store_id := Some (cps "coop_12");
     st_name := Some (cps "COOP Lausanne");
     st_address := Some (cps " Rue  du Lac 3 ");
     st_location_text := Some (cps "Lausanne");
     st_geo_point := Some JNull;
     st_retailer_id := None; st_coordinates := None; st_other := [] |}.

Definition gare_store : store :=
  {| st_store_id := None;
     st_name := Some (cps "Migros Gare");
     st_address := Some (cps "Place de la Gare 1");
     st_location_text := None;
     st_geo_point := None;
     st_retailer_id := None; st_coordinates := None; st_other := [] |}.

Definition lac_address : pystr := cps "Rue du Lac 3, Lausanne".

(** A cached result: latitude 46.5, longitude 6.625. *)
Definition lac_entry : jval :=
  JDict [ (cps "latitude", JFloat 93 (-1)); (cps "longitude", JFloat 53 (-3));
          (cps "status", JStr (cps "OK")) ].

(** No cache file yet and an empty store export. *)
Definition fresh_world : world :=
  {| cache := ∅; requests := [];
     geocode_cache_file := Absent; geocode_cache_file_writable := true;
     in_stores := Holds []; out_stores := Absent;
     out_stores_writable := true |}.

(** A cache file that knows the first of two stores. *)
Definition cached_world : world :=
  {| cache := {[ lac_address := lac_entry ]}; requests := [];
     geocode_cache_file := Holds {[ lac_address := lac_entry ]};
     geocode_cache_file_writable := true;
     in_stores := Holds [lac_store; gare_store]; out_stores := Absent;
     out_stores_writable := true |}.

(** The two raw records and the product of the end-to-end scenario. *)
Definition coop_12_p1 : raw_price :=
  {| rp_store_id := Some (cps "coop_12"); rp_product_id := Some (cps "p1");
     rp_price := Some (JFloat 5 (-1));                     (* 2.50 *)
     rp_currency := Some (JStr (cps "CHF"));
     rp_in_stock := None; rp_discount_active := None |}.

Definition coop_77_p1 : raw_price :=
  {| rp_store_id := Some (cps "coop_77"); rp_product_id := Some (cps "p1");
     rp_price := Some (JFloat 5623870034678907 (-49));   (* 9.99 *)
     rp_currency := Some (JStr (cps "CHF"));
     rp_in_stock := None; rp_discount_active := None |}.

Definition milk : product :=
  {| p_product_id := cps "p1"; p_name := Some (JStr (cps "Milk"));
     p_image_url := None; p_category := Some (JStr (cps "Dairy"));
     p_product_type := None; p_keywords := None; p_general_unit := None |}.

(** ** Products, discounts, retailers and their files *)

(** A product of the export, before and after phase 1. *)
Record product_row := {
  pr_product_id : option pystr;
  pr_name : option jval;
  pr_category : option jval;
  pr_image_url : option jval;
  pr_product_type : option jval;
  pr_keywords : option jval;
  pr_general_unit : option jval;
  pr_other : dict                  (* the keys the script never touches *)
}.

Record discount := {
  d_product_name : option jval;
  d_other : dict
}.

(** An entry of the retailer catalog. *)
Record retailer := {
  r_retailer_id : pystr;
  r_name : pystr;
  r_logo_url : option pystr;
  r_website : option pystr;
  r_description : pystr;
  r_primary_color : pystr;
  r_categories : list pystr
}.

(** The files of phases 0, 1, 3 and 4. *)
Record disk := {
  out_retailers : file (list retailer);
  out_retailers_writable : bool;
  in_products : file (list product_row);
  in_product_keywords : file (gmap pystr jval);
  out_products : file (list product_row);
  out_products_writable : bool;
  in_store_prices : file (list raw_price);
  out_retailer_prices : file (list retailer_price);
  out_retailer_prices_writable : bool;
  out_discounts : file (list discount);
  out_discounts_writable : bool
}.

(** The whole machine: the files and cache of phase 2, and the rest. *)
Record system := { sys_world : world; sys_disk : disk }.

(** Computations on a state [S] that may raise. *)
Definition ST (S A : Type) : Type := S -> result A * S.

Definition st_ret {S A} (a : A) : ST S A := fun s => (Ok a, s).

Definition st_bind {S A B} (m : ST S A) (k : A -> ST S B) : ST S B :=
  fun s => match m s with
           | (Ok a, s') => k a s'
           | (Raise e, s') => (Raise e, s')
           end.

Definition st_raise {S A} (e : exn) : ST S A := fun s => (Raise e, s).

Definition st_lift {S A} (r : result A) : ST S A := fun s => (r, s).

Notation "x <~ m ;; k" := (st_bind m (fun x => k))
  (at level 100, m at next level, right associativity).

(** A phase on the world, run on the whole machine. *)
Definition on_world {A} (m : M A) : ST system A :=
  fun s => (fst (m (sys_world s)),
            {| sys_world := snd (m (sys_world s)); sys_disk := sys_disk s |}).

(** A phase on the other files, run on the whole machine. *)
Definition on_disk {A} (m : ST disk A) : ST system A :=
  fun s => (fst (m (sys_disk s)),
            {| sys_world := sys_world s; sys_disk := snd (m (sys_disk s)) |}).

Definition with_out_retailers (rs : list retailer) (d : disk) : disk :=
  {| out_retailers := Holds rs;
     out_retailers_writable := out_retailers_writable d;
     in_products := in_products d;
     in_product_keywords := in_product_keywords d;
     out_products := out_products d;
     out_products_writable := out_products_writable d;
     in_store_prices := in_store_prices d;
     out_retailer_prices := out_retailer_prices d;
     out_retailer_prices_writable := out_retailer_prices_writable d;
     out_discounts := out_discounts d;
     out_discounts_writable := out_discounts_writable d |}.

Definition with_out_products (ps : list product_row) (d : disk) : disk :=
  {| out_retailers := out_retailers d;
     out_retailers_writable := out_retailers_writable d;
     in_products := in_products d;
     in_product_keywords := in_product_keywords d;
     out_products := Holds ps;
     out_products_writable := out_products_writable d;
     in_store_prices := in_store_prices d;
     out_retailer_prices := out_retailer_prices d;
     out_retailer_prices_writable := out_retailer_prices_writable d;
     out_discounts := out_discounts d;
     out_discounts_writable := out_discounts_writable d |}.

Definition with_out_retailer_prices (rs : list retailer_price) (d : disk)
  : disk :=
  {| out_retailers := out_retailers d;
     out_retailers_writable := out_retailers_writable d;
     in_products := in_products d;
     in_product_keywords := in_product_keywords d;
     out_products := out_products d;
     out_products_writable := out_products_writable d;
     in_store_prices := in_store_prices d;
     out_retailer_prices := Holds rs;
     out_retailer_prices_writable := out_retailer_prices_writable d;
     out_discounts := out_discounts d;
     out_discounts_writable := out_discounts_writable d |}.

Definition with_out_discounts (ds : list discount) (d : disk) : disk :=
  {| out_retailers := out_retailers d;
     out_retailers_writable := out_retailers_writable d;
     in_products := in_products d;
     in_product_keywords := in_product_keywords d;
     out_products := out_products d;
     out_products_writable := out_products_writable d;
     in_store_prices := in_store_prices d;
     out_retailer_prices := out_retailer_prices d;
     out_retailer_prices_writable := out_retailer_prices_writable d;
     out_discounts := Holds ds;
     out_discounts_writable := out_discounts_writable d |}.

(** The disk after a write of the product output has stopped short. *)
Definition with_truncated_out_products (d : disk) : disk :=
  {| out_retailers := out_retailers d;
     out_retailers_writable := out_retailers_writable d;
     in_products := in_products d;
     in_product_keywords := in_product_keywords d;
     out_products := Malformed;
     out_products_writable := out_products_writable d;
     in_store_prices := in_store_prices d;
     out_retailer_prices := out_retailer_prices d;
     out_retailer_prices_writable := out_retailer_prices_writable d;
     out_discounts := out_discounts d;
     out_discounts_writable := out_discounts_writable d |}.

(** The disk after a write of the discounts file has stopped short. *)
Definition with_truncated_out_discounts (d : disk) : disk :=
  {| out_retailers := out_retailers d;
     out_retailers_writable := out_retailers_writable d;
     in_products := in_products d;
     in_product_keywords := in_product_keywords d;
     out_products := out_products d;
     out_products_writable := out_products_writable d;
     in_store_prices := in_store_prices d;
     out_retailer_prices := out_retailer_prices d;
     out_retailer_prices_writable := out_retailer_prices_writable d;
     out_discounts := Malformed;
     out_discounts_writable := out_discounts_writable d |}.

Definition encodable_product (p : product_row) : bool :=
  match pr_product_id p with
  | Some i => encodable_str i
  | None => true
  end
  && encodable_field (pr_name p) && encodable_field (pr_category p)
  && encodable_field (pr_image_url p) && encodable_field (pr_product_type p)
  && encodable_field (pr_keywords p) && encodable_field (pr_general_unit p)
  && encodable_dict (pr_other p).

Definition encodable_discount (x : discount) : bool :=
  encodable_field (d_product_name x) && encodable_dict (d_other x).

(** [with OUT_RETAILERS.open('w') as f: json.dump(retailers, f)] *)
Definition dump_out_retailers (rs : list retailer) : ST disk unit :=
  fun d => if out_retailers_writable d
           then (Ok tt, with_out_retailers rs d)
           else (Raise OSError, d).

(** [with OUT_PRODUCTS.open('w', encoding='utf-8') as f:
    json.dump(products, f, ensure_ascii=False)].  Opening fails on a
    file that cannot be written and leaves it alone; opening truncates
    the file, and the encoder then raises on a lone surrogate, which
    leaves the file cut short. *)
Definition dump_out_products (ps : list product_row) : ST disk unit :=
  fun d => if out_products_writable d then
             if forallb encodable_product ps
             then (Ok tt, with_out_products ps d)
             else (Raise UnicodeEncodeError, with_truncated_out_products d)
           else (Raise OSError, d).

(** [with OUT_RETAILER_PRICES.open('w') as f: json.dump(transformed, f)] *)
Definition dump_out_retailer_prices (rs : list retailer_price)
  : ST disk unit :=
  fun d => if out_retailer_prices_writable d
           then (Ok tt, with_out_retailer_prices rs d)
           else (Raise OSError, d).

(** [with OUT_DISCOUNTS.open('w', encoding='utf-8') as f:
    json.dump(discounts, f, ensure_ascii=False)], on the file the phase
    has just read.  Opening fails on a file that cannot be written and
    leaves it alone; opening truncates the file, and the encoder then
    raises on a lone surrogate, which leaves the file cut short. *)
Definition dump_out_discounts (ds : list discount) : ST disk unit :=
  fun d => if out_discounts_writable d then
             if forallb encodable_discount ds
             then (Ok tt, with_out_discounts ds d)
             else (Raise UnicodeEncodeError, with_truncated_out_discounts d)
           else (Raise OSError, d).

(** [for x in xs: ...] in code that only raises. *)
Fixpoint for_each_result {A B} (f : A -> result B) (xs : list A)
  : result (list B) :=
  match xs with
  | [] => Ok []
  | x :: xs' =>
      match f x with
      | Ok y => match for_each_result f xs' with
                | Ok ys => Ok (y :: ys)
                | Raise e => Raise e
                end
      | Raise e => Raise e
      end
  end.

(** The catalog of [create_retailers]. *)
Definition retailers : list retailer :=
  [ {| r_retailer_id := cps "migros"; r_name := cps "Migros";
       r_logo_url := Some (cps "https://upload.wikimedia.org/wikipedia/commons/thumb/b/b9/Migros-Logo.svg/320px-Migros-Logo.svg.png");
       r_website := Some (cps "https://www.migros.ch");
       r_description := cps "Switzerland's largest supermarket chain";
       r_primary_color := cps "#FF6600";
       r_categories := [cps "Supermarket"; cps "Hypermarket"] |};
    {| r_retailer_id := cps "coop"; r_name := cps "Coop";
       r_logo_url := Some (cps "https://upload.wikimedia.org/wikipedia/commons/thumb/2/26/Coop_Logo.svg/320px-Coop_Logo.svg.png");
       r_website := Some (cps "https://www.coop.ch");
       r_description := cps "Switzerland's second largest supermarket chain";
       r_primary_color := cps "#E30613";
       r_categories := [cps "Supermarket"; cps "Hypermarket"] |};
    {| r_retailer_id := cps "denner"; r_name := cps "Denner";
       r_logo_url := Some (cps "https://upload.wikimedia.org/wikipedia/commons/thumb/1/1f/Denner_Logo.svg/320px-Denner_Logo.svg.png");
       r_website := Some (cps "https://www.denner.ch");
       r_description := cps "Swiss discount supermarket chain";
       r_primary_color := cps "#D70926";
       r_categories := [cps "Discount Supermarket"] |};
    {| r_retailer_id := cps "aldi"; r_name := cps "Aldi";
       r_logo_url := Some (cps "https://upload.wikimedia.org/wikipedia/commons/thumb/4/4e/Aldi_Sud_logo.svg/320px-Aldi_Sud_logo.svg.png");
       r_website := Some (cps "https://www.aldi-suisse.ch");
       r_description := cps "International discount supermarket chain";
       r_primary_color := cps "#009FE3";
       r_categories := [cps "Discount Supermarket"] |};
    {| r_retailer_id := cps "aligro"; r_name := cps "Aligro";
       r_logo_url := Some (cps "https://www.aligro.ch/themes/custom/aligro/logo.svg");
       r_website := Some (cps "https://www.aligro.ch");
       r_description := cps "Swiss cash-and-carry and wholesale food supplier";
       r_primary_color := cps "#E30613";
       r_categories := [cps "Cash & Carry"; cps "Wholesale"] |};
    {| r_retailer_id := cps "other"; r_name := cps "Other";
       r_logo_url := None; r_website := None;
       r_description := cps "Other retailers";
       r_primary_color := cps "#808080";
       r_categories := [cps "Various"] |} ].

(** ** More sample data *)

Definition aldi_3_p9 : raw_price :=
  {| rp_store_id := Some (cps "Aldi_3"); rp_product_id := Some (cps "p9");
     rp_price := Some (JInt 5); rp_currency := None;
     rp_in_stock := Some (JBool true); rp_discount_active := None |}.

(** "Bœuf haché", truthy fields, no keywords yet. *)
Definition boeuf_row : product_row :=
  {| pr_product_id := Some (cps "p1");
     pr_name := Some (JStr (cps "B" ++ [0x153] ++ cps "uf hach" ++ [0xE9]));
     pr_category := Some (JStr (cps "Viande"));
     pr_image_url := None; pr_product_type := Some (JStr (cps "meat"));
     pr_keywords := None; pr_general_unit := Some (JStr (cps "kg"));
     pr_other := [] |}.

(** A product without identifier and with an empty name. *)
Definition nameless_row : product_row :=
  {| pr_product_id := None; pr_name := Some (JStr []);
     pr_category := None; pr_image_url := None; pr_product_type := None;
     pr_keywords := None; pr_general_unit := None; pr_other := [] |}.

Definition oeufs_discount : discount :=
  {| d_product_name := Some (JStr ([0x152] ++ cps "ufs bio"));
     d_other := [(cps "discount_percentage", JInt 20)] |}.

(** The exports of one product and one price, nothing written yet. *)
Definition sample_disk : disk :=
  {| out_retailers := Absent; out_retailers_writable := true;
     in_products := Holds [boeuf_row];
     in_product_keywords := Holds {[ cps "p1" := JList [JStr (cps "beef")] ]};
     out_products := Absent; out_products_writable := true;
     in_store_prices := Holds [coop_12_p1; coop_77_p1];
     out_retailer_prices := Absent; out_retailer_prices_writable := true;
     out_discounts := Holds [oeufs_discount];
     out_discounts_writable := true |}.

(** The same with no product export. *)
Definition disk_without_products : disk :=
  {| out_retailers := Absent; out_retailers_writable := true;
     in_products := Absent;
     in_product_keywords := Absent;
     out_products := Absent; out_products_writable := true;
     in_store_prices := Holds [coop_12_p1; coop_77_p1];
     out_retailer_prices := Absent; out_retailer_prices_writable := true;
     out_discounts := Absent;
     out_discounts_writable := true |}.

(** A product export whose only product has a number for a name. *)
Definition disk_with_numeric_name : disk :=
  {| out_retailers := Absent; out_retailers_writable := true;
     in_products :=
       Holds [ {| pr_product_id := Some (cps "p7"); pr_name := Some (JInt 7);
                  pr_category := None; pr_image_url := None;
                  pr_product_type := None; pr_keywords := None;
                  pr_general_unit := None; pr_other := [] |} ];
     in_product_keywords := Absent;
     out_products := Absent; out_products_writable := true;
     in_store_prices := Absent;
     out_retailer_prices := Absent; out_retailer_prices_writable := true;
     out_discounts := Absent; out_discounts_writable := true |}.

(** [sample_disk] once phase 1 has written the product output. *)
Definition disk_after_phase_1 : disk :=
  with_out_products
    [ {| pr_product_id := Some (cps "p1");
         pr_name := Some (JStr (cps "Boeuf hach" ++ [0xE9]));
         pr_category := Some (JStr (cps "Viande"));
         pr_image_url := None; pr_product_type := Some (JStr (cps "meat"));
         pr_keywords := Some (JList [JStr (cps "beef")]);
         pr_general_unit := Some (JStr (cps "kg"));
         pr_other := [] |} ]
    sample_disk.

Definition sample_system : system :=
  {| sys_world := cached_world; sys_disk := sample_disk |}.

Definition system_without_products : system :=
  {| sys_world := cached_world; sys_disk := disk_without_products |}.

(** ** Data for the writes that fail and the marks that are kept *)



(** A cache file whose entry for the first store is a text, not an
    object. *)
Definition world_with_text_entry : world :=
  {| cache := ∅; requests := [];
     geocode_cache_file := Holds {[ lac_address := JStr (cps "pending") ]};
     geocode_cache_file_writable := true;
     in_stores := Holds [gare_store; lac_store]; out_stores := Absent;
     out_stores_writable := true |}.

(** A product and a discount whose names end in a lone surrogate, as
    [json.load] returns for the escape [\ud83d]. *)
Definition torn_row : product_row :=
  {| pr_product_id := Some (cps "p2");
     pr_name := Some (JStr (cps "Lait " ++ [0xD83D]));
     pr_category := None; pr_image_url := None; pr_product_type := None;
     pr_keywords := None; pr_general_unit := None; pr_other := [] |}.

Definition torn_discount : discount :=
  {| d_product_name := Some (JStr (cps "Lait " ++ [0xD83D]));
     d_other := [(cps "discount_percentage", JInt 10)] |}.

(** Exports that hold them, and the product output of an earlier run. *)
Definition disk_with_lone_surrogate : disk :=
  {| out_retailers := Absent; out_retailers_writable := true;
     in_products := Holds [torn_row];
     in_product_keywords := Absent;
     out_products := Holds [nameless_row]; out_products_writable := true;
     in_store_prices := Absent;
     out_retailer_prices := Absent; out_retailer_prices_writable := true;
     out_discounts := Holds [torn_discount];
     out_discounts_writable := true |}.

Section Script.

(** [str.lower] *)
Variable lower : pystr -> pystr.

(** [unicodedata.normalize('NFD', _)] *)
Variable nfd : pystr -> pystr.

(** The geocoding endpoint: its answer to a request, given the calls
    made before. *)
Variable service : list request -> request -> response.

(** ** Phase 0: retailers *)

(** [extract_retailer_id(store_name)] *)
Definition extract_retailer_id (store_name : pystr) : pystr :=
  match store_name with
  | [] => cps "unknown"
  | _ =>
      let name_lower := strip (lower store_name) in
      if contains (cps "migros") name_lower then cps "migros"
      else if contains (cps "coop") name_lower then cps "coop"
      else if contains (cps "denner") name_lower then cps "denner"
      else if contains (cps "aldi") name_lower then cps "aldi"
      else if contains (cps "aligro") name_lower then cps "aligro"
      else cps "other"
  end.

(** ** Phase 1: special characters *)

Definition LIG_OE_CAPITAL : N := 0x152.
Definition LIG_OE_SMALL : N := 0x153.

(** [clean_special_chars(text)]; [None] is an absent text. *)
Definition clean_special_chars (text : option pystr) : pystr :=
  match text with
  | None | Some [] => []
  | Some text =>
      let cleaned := text in
      let cleaned := replace LIG_OE_CAPITAL (cps "Oe") cleaned in
      let cleaned := replace LIG_OE_SMALL (cps "oe") cleaned in
      cleaned
  end.

(** The character class of [normalize_text]: U+0300 to U+036F. *)
Definition combining_mark (c : N) : bool := (0x300 <=? c) && (c <=? 0x36F).

(** [normalize_text(text)] *)
Definition normalize_text (text : option pystr) : pystr :=
  match text with
  | None | Some [] => []
  | Some text =>
      let text := clean_special_chars (Some text) in
      let decomposed := nfd text in
      List.filter (fun c => negb (combining_mark c)) decomposed
  end.

(** ** Phase 2: store coordinates *)

(** [load_geocode_cache()] *)
Definition load_geocode_cache : M (gmap pystr jval) :=
  fun w =>
    if exists_ (geocode_cache_file w) then
      catch (lift (json_load (geocode_cache_file w)))
            (fun _ => ret ∅) w
    else ret ∅ w.

(** [save_geocode_cache(cache)]; the warning it prints is not modelled. *)
Definition save_geocode_cache (c : gmap pystr jval) : M unit :=
  catch (dump_geocode_cache_file c) (fun _ => ret tt).

(** [normalize_address(store)] *)
Definition normalize_address (st : store) : pystr :=
  let parts := [ strip (default [] (st_address st));
                 strip (default [] (st_location_text st)) ] in
  let full_address :=
    join (cps ", ") (List.filter (fun p => negb (pystr_eqb p [])) parts) in
  join (cps " ") (split full_address).

(** [v[k]] for a string key. *)
Definition subscript (v : jval) (k : pystr) : result jval :=
  match v with
  | JDict d => match dget k d with
               | Some x => Ok x
               | None => Raise KeyError
               end
  | _ => Raise TypeError
  end.

(** [v[0]] *)
Definition subscript0 (v : jval) : result jval :=
  match v with
  | JList (x :: _) => Ok x
  | JList [] => Raise IndexError
  | JStr (c :: _) => Ok (JStr [c])
  | JStr [] => Raise IndexError
  | JDict _ => Raise KeyError
  | _ => Raise TypeError
  end.

(** [v.get(k, dflt)] *)
Definition get_method (v : jval) (k : pystr) (dflt : jval) : result jval :=
  match v with
  | JDict d => Ok (default dflt (dget k d))
  | _ => Raise AttributeError
  end.

Definition bind_result {A B} (r : result A) (k : A -> result B) : result B :=
  match r with
  | Ok a => k a
  | Raise e => Raise e
  end.

(** The part of [geocode_address] after the try block. *)
Definition geocode_result (data : jval) : result dict :=
  bind_result (get_method data (cps "status") JNull) (fun status =>
  bind_result (get_method data (cps "results") JNull) (fun results =>
  if negb (is_OK status) || negb (truthy results) then
    Ok [ (cps "latitude", zero_float); (cps "longitude", zero_float);
         (cps "status", status) ]
  else
    bind_result (subscript data (cps "results")) (fun rs =>
    bind_result (subscript0 rs) (fun result =>
    bind_result (subscript result (cps "geometry")) (fun geometry =>
    bind_result (subscript geometry (cps "location")) (fun location =>
    bind_result (subscript location (cps "lat")) (fun lat =>
    bind_result (subscript location (cps "lng")) (fun lng =>
    bind_result (get_method geometry (cps "location_type")
                            (JStr (cps "UNKNOWN"))) (fun accuracy =>
    Ok [ (cps "latitude", lat); (cps "longitude", lng);
         (cps "status", JStr (cps "OK")); (cps "accuracy", accuracy) ]
    ))))))))).

(** [geocode_address(address, api_key)] *)
Definition geocode_address (address api_key : pystr) : M dict :=
  let rq := {| req_address := address; req_key := api_key |} in
  fun w =>
    match service (requests w) rq with
    | NoAnswer =>
        (_ <- log_request rq ;;
         ret [ (cps "latitude", zero_float); (cps "longitude", zero_float);
               (cps "status", JStr (cps "error")) ]) w
    | Answer data =>
        (_ <- log_request rq ;; lift (geocode_result data)) w
    end.

(** [get_coordinates_for_store(store, api_key, cache)]; the dictionary
    [cache] is the one in the world. *)
Definition get_coordinates_for_store (st : store) (api_key : option pystr)
  : M coords :=
  let address := normalize_address st in
  match address with
  | [] => ret zero_coords
  | _ =>
      c <- get_cache ;;
      match c !! address with
      | Some cached =>
          lat <- lift (get_method cached (cps "latitude") zero_float) ;;
          lng <- lift (get_method cached (cps "longitude") zero_float) ;;
          ret {| latitude := lat; longitude := lng |}
      | None =>
          match api_key with
          | Some (k :: ey) =>
              result <- geocode_address address (k :: ey) ;;
              c <- get_cache ;;
              _ <- set_cache (<[address := JDict result]> c) ;;
              ret {| latitude := default zero_float (dget (cps "latitude") result);
                     longitude := default zero_float (dget (cps "longitude") result) |}
          | _ => ret zero_coords
          end
      end
  end.

(** The body of the loop of [transform_stores]. *)
Definition transform_store (st : store) : M store :=
  let store_name := default [] (st_name st) in
  let retailer := extract_retailer_id store_name in
  let st1 := {| st_store_id := st_store_id st; st_name := st_name st;
                st_address := st_address st;
                st_location_text := st_location_text st;
                st_geo_point := None;
                st_retailer_id := Some retailer;
                st_coordinates := st_coordinates st;
                st_other := st_other st |} in
  coords <- get_coordinates_for_store st1 None ;;
  ret {| st_store_id :=
           match st_store_id st1 with
           | Some i => Some i
           | None =>
               Some (cps "unknown_" ++ lower (default (cps "store") (st_name st1)))
           end;
         st_name := st_name st1;
         st_address := st_address st1;
         st_location_text := st_location_text st1;
         st_geo_point := None;
         st_retailer_id := Some retailer;
         st_coordinates :=
           Some {| latitude := latitude coords; longitude := longitude coords |};
         st_other := st_other st1 |}.

(** [transform_stores()]; the progress and summary lines it prints are
    not modelled. *)
Definition transform_stores : M unit :=
  fun w =>
    if negb (exists_ (in_stores w)) then raise FileNotFoundError w
    else
      (stores <- lift (json_load (in_stores w)) ;;
       c <- load_geocode_cache ;;
       _ <- set_cache c ;;
       stores' <- for_each transform_store stores ;;
       dump_out_stores stores') w.

(** ** Phase 3: retailer-level prices *)

(** The key of a raw record: [(retailer_id, product_id)]. *)
Definition price_key (item : raw_price) : pystr * pystr :=
  let store_id := default [] (rp_store_id item) in
  let product_id := default [] (rp_product_id item) in
  let retailer := extract_retailer_id store_id in
  (retailer, product_id).

Definition key_eqb (a b : pystr * pystr) : bool := bool_decide (a = b).

(** [key in retailer_prices_map] *)
Definition key_in (k : pystr * pystr)
  (m : list ((pystr * pystr) * raw_price)) : bool :=
  existsb (fun e => key_eqb (fst e) k) m.

(** The body of the grouping loop. *)
Definition group_step (m : list ((pystr * pystr) * raw_price))
  (item : raw_price) : list ((pystr * pystr) * raw_price) :=
  let key := price_key item in
  if negb (key_in key m) then m ++ [(key, item)] else m.

(** The dictionary [retailer_prices_map] after the grouping loop, in
    insertion order. *)
Definition retailer_prices_map (inventory : list raw_price)
  : list ((pystr * pystr) * raw_price) :=
  fold_left group_step inventory [].

(** [{p['product_id']: p for p in products}] *)
Definition product_map_of (products : list product) : gmap pystr product :=
  fold_left (fun m p => <[p_product_id p := p]> m) products ∅.

(** The body of the second loop: the document of one entry. *)
Definition transformed_item (product_map : gmap pystr product)
  (current_time : pystr) (entry : (pystr * pystr) * raw_price)
  : retailer_price :=
  let '((retailer, product_id_), item) := entry in
  let doc := retailer ++ cps "_" ++ product_id_ in
  match product_map !! product_id_ with
  | Some product =>
      {| doc_id := doc; retailer_id := retailer; product_id := product_id_;
         price := default JNull (rp_price item);
         currency := default (JStr (cps "CHF")) (rp_currency item);
         in_stock := default (JBool false) (rp_in_stock item);
         discount_active := default (JBool false) (rp_discount_active item);
         product_name := default JNull (p_name product);
         product_image := default JNull (p_image_url product);
         category := default JNull (p_category product);
         product_type := default JNull (p_product_type product);
         keywords := default (JList []) (p_keywords product);
         unit_ := default JNull (p_general_unit product);
         last_updated := current_time |}
  | None =>
      {| doc_id := doc; retailer_id := retailer; product_id := product_id_;
         price := default JNull (rp_price item);
         currency := default (JStr (cps "CHF")) (rp_currency item);
         in_stock := default (JBool false) (rp_in_stock item);
         discount_active := default (JBool false) (rp_discount_active item);
         product_name := JNull; product_image := JNull; category := JNull;
         product_type := JNull; keywords := JList []; unit_ := JNull;
         last_updated := current_time |}
  end.

(** The sort key [(x['retailer_id'], x['product_id'])] and its order. *)
Definition sort_key (x : retailer_price) : pystr * pystr :=
  (retailer_id x, product_id x).

Definition key_ltb (a b : pystr * pystr) : bool :=
  str_ltb (fst a) (fst b)
  || (pystr_eqb (fst a) (fst b) && str_ltb (snd a) (snd b)).

(** Stable insertion: [x] goes before the first element that is not
    smaller than it. *)
Fixpoint insert_sorted (x : retailer_price) (l : list retailer_price)
  : list retailer_price :=
  match l with
  | [] => [x]
  | y :: l' => if key_ltb (sort_key y) (sort_key x)
               then y :: insert_sorted x l' else x :: l
  end.

(** [transformed.sort(key=...)] *)
Definition sort_transformed (l : list retailer_price) : list retailer_price :=
  fold_right insert_sorted [] l.

(** The list [transform_retailer_prices] writes, from the parsed store
    prices, the product map and the timestamp. *)
Definition retailer_prices (inventory : list raw_price)
  (product_map : gmap pystr product) (current_time : pystr)
  : list retailer_price :=
  sort_transformed
    (List.map (transformed_item product_map current_time)
              (retailer_prices_map inventory)).

(** [transform_retailer_prices()] on the parsed input files. *)
Definition transform_retailer_prices (inventory : list raw_price)
  (products : list product) (current_time : pystr) : list retailer_price :=
  retailer_prices inventory (product_map_of products) current_time.

(** ** Notions used in the statements *)

(** The classifier as its contract words it: the patterns in their
    priority order, and the first of them that occurs in the name. *)
Definition retailer_patterns : list pystr :=
  [cps "migros"; cps "coop"; cps "denner"; cps "aldi"; cps "aligro"].

Definition first_match (name : pystr) : pystr :=
  default (cps "other") (List.find (fun p => contains p name) retailer_patterns).

(** A word of [split]: not empty and free of white space. *)
Definition word (w : pystr) : Prop :=
  w <> [] /\ Forall (fun c => isspace c = false) w.

(** The store [st] with [n] as its address and an empty location text. *)
Definition with_address (n : pystr) (st : store) : store :=
  {| st_store_id := st_store_id st; st_name := st_name st;
     st_address := Some n; st_location_text := Some [];
     st_geo_point := st_geo_point st; st_retailer_id := st_retailer_id st;
     st_coordinates := st_coordinates st; st_other := st_other st |}.

(** The mapping a cache file stands for when the phase starts. *)
Definition stored_mapping (f : file (gmap pystr jval)) : gmap pystr jval :=
  match f with
  | Holds m => m
  | _ => ∅
  end.

(** The cached value of a store's address, if any, is a JSON object. *)
Definition entry_is_object (c : gmap pystr jval) (st : store) : Prop :=
  forall v, c !! normalize_address st = Some v -> exists d, v = JDict d.

(** The entry cached for a failed lookup. *)
Definition sentinel (status : jval) : jval :=
  JDict [ (cps "latitude", zero_float); (cps "longitude", zero_float);
          (cps "status", status) ].

(** A sequence of coordinate lookups on the same cache, whatever each
    of them returns or raises. *)
Definition run_lookups (ls : list (store * option pystr)) (w : world) : world :=
  fold_left (fun w l => snd (get_coordinates_for_store (fst l) (snd l) w)) ls w.

(** ** Phase 0, 1, 3, 4 on their files, and the whole run *)

(** [create_retailers()]; the lines it prints are not modelled. *)
Definition create_retailers : ST disk unit := dump_out_retailers retailers.

(** [if k in d and d[k]: d[k] = clean_special_chars(d[k])], on the value
    of the key [k]; a true value that is not a string has no [replace]. *)
Definition clean_field (v : option jval) : result (option jval) :=
  match v with
  | None => Ok None
  | Some x =>
      if truthy x then
        match x with
        | JStr s => Ok (Some (JStr (clean_special_chars (Some s))))
        | _ => Raise AttributeError
        end
      else Ok (Some x)
  end.

(** The body of the loop of [transform_products]. *)
Definition transform_product (keywords_map : gmap pystr jval)
  (p : product_row) : result product_row :=
  bind_result (clean_field (pr_name p)) (fun name =>
  bind_result (clean_field (pr_category p)) (fun category =>
  let product_id := pr_product_id p in
  let keywords :=
    match product_id with
    | Some (c :: i) =>
        match keywords_map !! (c :: i) with
        | Some k => k
        | None => JList []
        end
    | _ => JList []
    end in
  Ok {| pr_product_id := pr_product_id p;
        pr_name := name; pr_category := category;
        pr_image_url := pr_image_url p;
        pr_product_type := pr_product_type p;
        pr_keywords := Some keywords;
        pr_general_unit := pr_general_unit p;
        pr_other := pr_other p |})).

(** [transform_products()]; the lines it prints are not modelled. *)
Definition transform_products : ST disk unit :=
  fun d =>
    if negb (exists_ (in_products d)) then st_raise FileNotFoundError d
    else
      (keywords_map <~ (if exists_ (in_product_keywords d)
                        then st_lift (json_load (in_product_keywords d))
                        else st_ret ∅) ;;
       products <~ st_lift (json_load (in_products d)) ;;
       products' <~ st_lift (for_each_result (transform_product keywords_map)
                               products) ;;
       dump_out_products products') d.

(** [p['product_id']] and the keys phase 3 reads of a product. *)
Definition as_product (r : product_row) : result product :=
  match pr_product_id r with
  | Some i =>
      Ok {| p_product_id := i; p_name := pr_name r;
            p_image_url := pr_image_url r; p_category := pr_category r;
            p_product_type := pr_product_type r;
            p_keywords := pr_keywords r;
            p_general_unit := pr_general_unit r |}
  | None => Raise KeyError
  end.

(** [transform_retailer_prices()] with its files; [current_time] is the
    clock reading, the lines it prints are not modelled. *)
Definition run_transform_retailer_prices (current_time : pystr)
  : ST disk unit :=
  fun d =>
    if negb (exists_ (in_store_prices d)) then st_raise FileNotFoundError d
    else
      (inventory <~ st_lift (json_load (in_store_prices d)) ;;
       fun d1 =>
         if negb (exists_ (out_products d1)) then st_raise FileNotFoundError d1
         else
           (rows <~ st_lift (json_load (out_products d1)) ;;
            products <~ st_lift (for_each_result as_product rows) ;;
            dump_out_retailer_prices
              (transform_retailer_prices inventory products current_time)) d1) d.

(** The body of the loop of [transform_discounts]. *)
Definition transform_discount (x : discount) : result discount :=
  bind_result (clean_field (d_product_name x)) (fun name =>
  Ok {| d_product_name := name; d_other := d_other x |}).

(** [transform_discounts()]; the lines it prints are not modelled. *)
Definition transform_discounts : ST disk unit :=
  fun d =>
    if negb (exists_ (out_discounts d)) then st_ret tt d
    else
      (discounts <~ st_lift (json_load (out_discounts d)) ;;
       discounts' <~ st_lift (for_each_result transform_discount discounts) ;;
       dump_out_discounts discounts') d.

(** [main()]; [current_time] is what the clock reads in phase 3. *)
Definition main (current_time : pystr) : ST system unit :=
  _ <~ on_disk create_retailers ;;
  _ <~ on_disk transform_products ;;
  _ <~ on_world transform_stores ;;
  _ <~ on_disk (run_transform_retailer_prices current_time) ;;
  on_disk transform_discounts.

(** The mapping a keywords file stands for in phase 1. *)
Definition stored_keywords (f : file (gmap pystr jval)) : gmap pystr jval :=
  match f with
  | Holds m => m
  | _ => ∅
  end.

(** A text field holds no ligature when it is a string. *)
Definition ligature_free (v : option jval) : Prop :=
  match v with
  | Some (JStr s) => ~ In LIG_OE_CAPITAL s /\ ~ In LIG_OE_SMALL s
  | _ => True
  end.

(** * Properties *)

(** ** Strings *)

Lemma isspace_space : isspace 32 = true.
Proof. reflexivity. Qed.

Lemma pystr_eqb_nil_cons (c : N) (s : pystr) : pystr_eqb (c :: s) [] = false.
Proof. unfold pystr_eqb. apply bool_decide_eq_false. discriminate. Qed.

Lemma startswith_spec (p s : pystr) :
  startswith p s = true <-> exists b, s = p ++ b.
Proof.
  revert s. induction p as [|a p IH]; intros s; cbn.
  - split; [intros _; now exists s | reflexivity].
  - destruct s as [|c s]; [split; [discriminate | now intros [b Hb]]|].
    rewrite andb_true_iff, N.eqb_eq, IH.
    split.
    + intros [-> [b ->]]. now exists b.
    + intros [b [= -> ->]]. eauto.
Qed.

(** [contains] is substring containment. *)
Lemma contains_spec (p s : pystr) :
  contains p s = true <-> exists a b, s = a ++ p ++ b.
Proof.
  induction s as [|c s IH]; cbn [contains]; rewrite orb_true_iff, startswith_spec.
  - split.
    + intros [[b Hb]|H]; [now exists [], b | discriminate].
    + intros (a & b & H). left. exists b.
      destruct a; [exact H | discriminate].
  - rewrite IH. split.
    + intros [[b Hb]|(a & b & ->)]; [now exists [], b | now exists (c :: a), b].
    + intros (a & b & H). destruct a as [|c' a]; [left; now exists b|].
      right. injection H as -> ->. eauto.
Qed.

Lemma lstrip_head (c : N) (s : pystr) :
  isspace c = false -> lstrip (c :: s) = c :: s.
Proof. intros H. simpl. now rewrite H. Qed.

Lemma strip_trimmed (s : pystr) :
  lstrip s = s -> lstrip (rev s) = rev s -> strip s = s.
Proof.
  intros Hl Hr. unfold strip, rstrip. rewrite Hl, Hr. apply rev_involutive.
Qed.

Lemma split_skip (c : N) (s : pystr) :
  isspace c = true -> split (c :: s) = split s.
Proof. intros H. simpl. now rewrite H. Qed.

Lemma split_words (s : pystr) : Forall word (split s).
Proof.
  induction s as [|c s IH]; simpl; [constructor|].
  destruct (isspace c) eqn:Hc; [exact IH|].
  destruct s as [|d s'].
  - repeat constructor; [discriminate | exact Hc].
  - destruct (isspace d) eqn:Hd.
    + constructor; [|exact IH].
      split; [discriminate | now repeat constructor].
    + destruct (split (d :: s')) as [|w ws] eqn:Hs; simpl.
      * repeat constructor; [discriminate | exact Hc].
      * inversion IH as [|? ? [Hne Hw] Hws]; subst.
        constructor; [|exact Hws].
        split; [discriminate | now constructor].
Qed.

Lemma split_word_then_space (w t : pystr) :
  word w -> split (w ++ 32 :: t) = w :: split t.
Proof.
  intros [Hne Hw]. induction w as [|c w IH]; [congruence|].
  inversion Hw as [|? ? Hc Hw']; subst.
  destruct w as [|d w'].
  - simpl. rewrite Hc. simpl. reflexivity.
  - inversion Hw' as [|? ? Hd _]; subst.
    change (split ((c :: d :: w') ++ 32 :: t))
      with (if isspace c then split ((d :: w') ++ 32 :: t)
            else if isspace d then [c] :: split ((d :: w') ++ 32 :: t)
                 else cons_word c (split ((d :: w') ++ 32 :: t))).
    rewrite Hc, Hd, IH by (discriminate || assumption). reflexivity.
Qed.

Lemma split_one_word (w : pystr) : word w -> split w = [w].
Proof.
  intros [Hne Hw]. induction w as [|c w IH]; [congruence|].
  inversion Hw as [|? ? Hc Hw']; subst.
  destruct w as [|d w'].
  - simpl. now rewrite Hc.
  - inversion Hw' as [|? ? Hd _]; subst.
    change (split (c :: d :: w'))
      with (if isspace c then split (d :: w')
            else if isspace d then [c] :: split (d :: w')
                 else cons_word c (split (d :: w'))).
    rewrite Hc, Hd, IH by (discriminate || assumption). reflexivity.
Qed.

Lemma split_join (ws : list pystr) :
  Forall word ws -> split (join (cps " ") ws) = ws.
Proof.
  induction ws as [|w ws IH]; intros H; [reflexivity|].
  inversion H as [|? ? Hw Hws]; subst.
  destruct ws as [|w2 ws'].
  - now apply split_one_word.
  - change (join (cps " ") (w :: w2 :: ws'))
      with (w ++ 32 :: join (cps " ") (w2 :: ws')).
    rewrite split_word_then_space by assumption.
    now rewrite IH.
Qed.

Lemma join_words_head (ws : list pystr) :
  Forall word ws -> lstrip (join (cps " ") ws) = join (cps " ") ws.
Proof.
  intros H. destruct ws as [|w ws]; [reflexivity|].
  inversion H as [|? ? [Hne Hw] _]; subst.
  destruct w as [|c w]; [congruence|].
  inversion Hw as [|? ? Hc _]; subst.
  destruct ws; simpl; now rewrite Hc.
Qed.

Lemma word_last (w : pystr) :
  word w -> exists t c, w = t ++ [c] /\ isspace c = false.
Proof.
  intros [Hne Hw]. destruct (exists_last Hne) as (t & c & ->).
  exists t, c. split; [reflexivity|].
  apply Forall_app in Hw as [_ Hc]. now inversion Hc.
Qed.

Lemma join_words_last (w : pystr) (ws : list pystr) :
  Forall word (w :: ws) ->
  exists t c, join (cps " ") (w :: ws) = t ++ [c] /\ isspace c = false.
Proof.
  revert w. induction ws as [|w2 ws IH]; intros w H.
  - inversion H; subst. now apply word_last.
  - inversion H as [|? ? _ H2]; subst.
    destruct (IH w2 H2) as (t & c & Ht & Hc).
    exists (w ++ cps " " ++ t), c. split; [|exact Hc].
    change (join (cps " ") (w :: w2 :: ws))
      with (w ++ cps " " ++ join (cps " ") (w2 :: ws)).
    rewrite Ht. now rewrite <- !app_assoc.
Qed.

Lemma join_words_trimmed (ws : list pystr) :
  Forall word ws -> strip (join (cps " ") ws) = join (cps " ") ws.
Proof.
  intros H. apply strip_trimmed; [now apply join_words_head|].
  destruct ws as [|w ws]; [reflexivity|].
  destruct (join_words_last w ws H) as (t & c & -> & Hc).
  rewrite rev_unit. now apply lstrip_head.
Qed.

(** ** Retailer classifier *)

(** C4 (amended).  For every non-empty name the classifier lower-cases
    and trims it and returns the first of the patterns migros, coop,
    denner, aldi, aligro that occurs in the result, and "other" when
    none does; for the empty name it returns "unknown". *)
Theorem extract_retailer_id_first_match (store_name : pystr) :
  extract_retailer_id store_name =
  match store_name with
  | [] => cps "unknown"
  | _ => first_match (strip (lower store_name))
  end.
Proof.
  destruct store_name as [|c s]; [reflexivity|].
  unfold extract_retailer_id, first_match, retailer_patterns.
  set (name_lower := strip (lower (c :: s))).
  simpl List.find.
  repeat match goal with
         | |- context [contains ?p name_lower] =>
             destruct (contains p name_lower); [reflexivity|]
         end.
  reflexivity.
Qed.

(** ** Geocode cache store *)

Lemma load_geocode_cache_run (w : world) :
  load_geocode_cache w = (Ok (stored_mapping (geocode_cache_file w)), w).
Proof.
  unfold load_geocode_cache, catch, lift, ret.
  destruct (geocode_cache_file w); reflexivity.
Qed.

(** C9.  Loading the cache returns the empty mapping when the cache
    file is absent, cannot be read or cannot be parsed, returns the
    stored mapping when the file parses, never raises and leaves the
    world as it was. *)
Theorem load_geocode_cache_total (w : world) :
  load_geocode_cache w =
  (Ok match geocode_cache_file w with
      | Absent | Unreadable | Malformed => ∅
      | Holds m => m
      end, w).
Proof.
  unfold load_geocode_cache, catch, lift, ret.
  destruct (geocode_cache_file w); reflexivity.
Qed.

(** ** Text normalizer *)

Lemma replace_not_in (c : N) (r s : pystr) (x : N) :
  In x (replace c r s) -> In x r \/ (In x s /\ x <> c).
Proof.
  unfold replace. rewrite in_flat_map. intros (y & Hy & Hx).
  destruct (N.eqb_spec y c) as [->|Hne]; [now left|].
  right. destruct Hx as [<-|[]]. now split.
Qed.

Lemma clean_special_chars_no_ligature (text : option pystr) (c : N) :
  In c (clean_special_chars text) ->
  c <> LIG_OE_CAPITAL /\ c <> LIG_OE_SMALL.
Proof.
  destruct text as [[|a t]|]; try (simpl; tauto).
  unfold clean_special_chars. intros H.
  apply replace_not_in in H as [H|[H Hs]].
  - simpl in H. unfold LIG_OE_CAPITAL, LIG_OE_SMALL.
    destruct H as [<-|[<-|[]]]; split; discriminate.
  - split; [|exact Hs].
    apply replace_not_in in H as [H|[_ H]]; [|exact H].
    simpl in H. unfold LIG_OE_CAPITAL.
    destruct H as [<-|[<-|[]]]; discriminate.
Qed.

Section Normalization.

(** Canonical decomposition never produces a ligature that was not in
    its input: no code point decomposes to U+0152 or U+0153. *)
Hypothesis nfd_no_ligature :
  forall (s : pystr) (c : N),
    In c (nfd s) -> c = LIG_OE_CAPITAL \/ c = LIG_OE_SMALL -> In c s.


End Normalization.

(** ** Address normalization *)

Lemma normalize_address_trimmed (st : store) :
  strip (normalize_address st) = normalize_address st.
Proof. apply join_words_trimmed, split_words. Qed.

Lemma normalize_address_collapsed (st : store) :
  join (cps " ") (split (normalize_address st)) = normalize_address st.
Proof.
  unfold normalize_address. now rewrite split_join by apply split_words.
Qed.

(** C7.  Normalizing a store whose address is an already normalized
    address and whose location text is empty gives that address back;
    trimming it and collapsing its white space change nothing. *)
Theorem normalize_address_idempotent (st other : store) :
  normalize_address (with_address (normalize_address st) other)
  = normalize_address st
  /\ strip (normalize_address st) = normalize_address st
  /\ join (cps " ") (split (normalize_address st)) = normalize_address st.
Proof.
  split; [|split; [apply normalize_address_trimmed
                  | apply normalize_address_collapsed]].
  unfold normalize_address at 1.
  cbn [with_address st_address st_location_text default from_option id].
  rewrite (normalize_address_trimmed st).
  change (strip []) with (@nil N).
  destruct (normalize_address st) as [|c n'] eqn:Hn.
  - reflexivity.
  - cbn [List.filter]. rewrite pystr_eqb_nil_cons. cbn [negb join].
    rewrite <- Hn. apply normalize_address_collapsed.
Qed.

(** ** Coordinate lookup *)

Ltac run_monad :=
  unfold bind, ret, lift, raise, catch, get_cache, set_cache, log_request;
  cbv beta iota.

Lemma lookup_empty_address (st : store) (api_key : option pystr) (w : world) :
  normalize_address st = [] ->
  get_coordinates_for_store st api_key w = (Ok zero_coords, w).
Proof.
  intros H. unfold get_coordinates_for_store. now rewrite H.
Qed.

Lemma lookup_hit (st : store) (api_key : option pystr) (w : world)
  (cached : jval) :
  normalize_address st <> [] ->
  cache w !! normalize_address st = Some cached ->
  get_coordinates_for_store st api_key w =
  (bind_result (get_method cached (cps "latitude") zero_float) (fun lat =>
   bind_result (get_method cached (cps "longitude") zero_float) (fun lng =>
   Ok {| latitude := lat; longitude := lng |})), w).
Proof.
  intros Hne Hc. unfold get_coordinates_for_store.
  destruct (normalize_address st) as [|c a] eqn:Ha; [congruence|].
  run_monad. rewrite Hc. run_monad.
  destruct cached; reflexivity.
Qed.

Lemma lookup_miss_no_key (st : store) (api_key : option pystr) (w : world) :
  api_key = None \/ api_key = Some [] ->
  cache w !! normalize_address st = None ->
  get_coordinates_for_store st api_key w = (Ok zero_coords, w).
Proof.
  intros Hk Hc. unfold get_coordinates_for_store.
  destruct (normalize_address st) as [|c a] eqn:Ha; [reflexivity|].
  run_monad. rewrite Hc.
  destruct Hk as [-> | ->]; reflexivity.
Qed.

Lemma lookup_miss_key (st : store) (k : N) (ey : pystr) (w : world) :
  normalize_address st <> [] ->
  cache w !! normalize_address st = None ->
  let address := normalize_address st in
  let rq := {| req_address := address; req_key := k :: ey |} in
  let w1 := with_request rq w in
  get_coordinates_for_store st (Some (k :: ey)) w =
  match service (requests w) rq with
  | NoAnswer =>
      (Ok zero_coords,
       with_cache (<[address := sentinel (JStr (cps "error"))]> (cache w)) w1)
  | Answer data =>
      match geocode_result data with
      | Ok result =>
          (Ok {| latitude := default zero_float (dget (cps "latitude") result);
                 longitude := default zero_float (dget (cps "longitude") result) |},
           with_cache (<[address := JDict result]> (cache w)) w1)
      | Raise e => (Raise e, w1)
      end
  end.
Proof.
  intros Hne Hc. cbv zeta. unfold get_coordinates_for_store.
  destruct (normalize_address st) as [|c a] eqn:Ha; [congruence|].
  run_monad. rewrite Hc. unfold geocode_address. run_monad.
  destruct (service _ _) as [|data]; [reflexivity|].
  destruct (geocode_result data); reflexivity.
Qed.

Lemma geocode_result_failed (data : dict) :
  let status := default JNull (dget (cps "status") data) in
  is_OK status = false
  \/ truthy (default JNull (dget (cps "results") data)) = false ->
  geocode_result (JDict data) =
  Ok [ (cps "latitude", zero_float); (cps "longitude", zero_float);
       (cps "status", status) ].
Proof.
  cbv zeta. intros H. unfold geocode_result, get_method, bind_result.
  destruct H as [-> | ->]; [reflexivity|].
  now rewrite orb_true_r.
Qed.

Lemma lookup_keeps_entries (st : store) (api_key : option pystr) (w : world)
  (a : pystr) (v : jval) :
  cache w !! a = Some v ->
  cache (snd (get_coordinates_for_store st api_key w)) !! a = Some v.
Proof.
  intros Ha.
  destruct (normalize_address st) as [|c n] eqn:Hn.
  - now rewrite lookup_empty_address.
  - assert (Hne : normalize_address st <> []) by (rewrite Hn; discriminate).
    destruct (cache w !! normalize_address st) as [cached|] eqn:Hc.
    + now rewrite (lookup_hit _ _ _ _ Hne Hc).
    + assert (Hd : normalize_address st <> a) by congruence.
      destruct api_key as [[|k ey]|].
      * rewrite lookup_miss_no_key by auto. exact Ha.
      * rewrite (lookup_miss_key _ _ _ _ Hne Hc).
        destruct (service _ _) as [|data]; cbn [snd with_cache cache].
        -- now rewrite lookup_insert_ne.
        -- destruct (geocode_result data); cbn [snd with_cache with_request cache];
             [now rewrite lookup_insert_ne | exact Ha].
      * rewrite lookup_miss_no_key by auto. exact Ha.
Qed.

Lemma run_lookups_app (ls1 ls2 : list (store * option pystr)) (w : world) :
  run_lookups (ls1 ++ ls2) w = run_lookups ls2 (run_lookups ls1 w).
Proof. apply fold_left_app. Qed.

Lemma run_lookups_keeps_entries (ls : list (store * option pystr)) (w : world)
  (a : pystr) (v : jval) :
  cache w !! a = Some v -> cache (run_lookups ls w) !! a = Some v.
Proof.
  revert w. induction ls as [|[st k] ls IH]; intros w Ha; [exact Ha|].
  apply IH. now apply lookup_keeps_entries.
Qed.

(** C6.  The cache only grows along a sequence of coordinate lookups:
    a key that is present keeps its value through every later lookup,
    whatever stores and credentials the lookups are made with. *)
Theorem cache_append_only (before after : list (store * option pystr))
  (w : world) (a : pystr) (v : jval) :
  cache (run_lookups before w) !! a = Some v ->
  cache (run_lookups (before ++ after) w) !! a = Some v.
Proof.
  intros Ha. rewrite run_lookups_app. now apply run_lookups_keeps_entries.
Qed.

Lemma lookup_no_key_world (st : store) (api_key : option pystr) (w : world) :
  api_key = None \/ api_key = Some [] ->
  snd (get_coordinates_for_store st api_key w) = w.
Proof.
  intros Hk.
  destruct (normalize_address st) as [|c n] eqn:Hn.
  - now rewrite lookup_empty_address.
  - assert (Hne : normalize_address st <> []) by (rewrite Hn; discriminate).
    destruct (cache w !! normalize_address st) as [cached|] eqn:Hc.
    + now rewrite (lookup_hit _ _ _ _ Hne Hc).
    + now rewrite lookup_miss_no_key.
Qed.

(** C8 (amended).  A lookup without a credential issues no request and
    leaves the cache mapping as it was; when the normalized address is
    not a key of the cache it returns the zero coordinates. *)
Theorem lookup_without_credential (st : store) (api_key : option pystr)
  (w : world) :
  api_key = None \/ api_key = Some [] ->
  requests (snd (get_coordinates_for_store st api_key w)) = requests w
  /\ cache (snd (get_coordinates_for_store st api_key w)) = cache w
  /\ (cache w !! normalize_address st = None ->
      fst (get_coordinates_for_store st api_key w) = Ok zero_coords).
Proof.
  intros Hk. rewrite (lookup_no_key_world st api_key w Hk). repeat split.
  intros Hc. now rewrite lookup_miss_no_key.
Qed.

(** C5.  With a credential, for an address that is not cached, when the
    service answers with a status other than OK or with no results, the
    lookup returns the zero coordinates, issues that one request and
    stores the sentinel (0.0, 0.0, reported status) under the normalized
    address; after any further lookups, a lookup of the same normalized
    address returns the zero coordinates from the cache and issues no
    request. *)
Theorem failed_lookup_is_cached (st : store) (k : N) (ey : pystr) (w : world)
  (data : dict) :
  let address := normalize_address st in
  let rq := {| req_address := address; req_key := k :: ey |} in
  let status := default JNull (dget (cps "status") data) in
  address <> [] ->
  cache w !! address = None ->
  service (requests w) rq = Answer (JDict data) ->
  is_OK status = false
  \/ truthy (default JNull (dget (cps "results") data)) = false ->
  let w1 := snd (get_coordinates_for_store st (Some (k :: ey)) w) in
  fst (get_coordinates_for_store st (Some (k :: ey)) w) = Ok zero_coords
  /\ requests w1 = requests w ++ [rq]
  /\ cache w1 = <[address := sentinel status]> (cache w)
  /\ forall (between : list (store * option pystr)) (st2 : store)
            (api_key2 : option pystr),
       normalize_address st2 = address ->
       let w2 := run_lookups between w1 in
       get_coordinates_for_store st2 api_key2 w2 = (Ok zero_coords, w2).
Proof.
  cbv zeta. intros Hne Hc Hs Hfail.
  rewrite (lookup_miss_key _ _ _ _ Hne Hc), Hs.
  rewrite (geocode_result_failed data Hfail).
  cbn [fst snd with_cache with_request cache requests].
  repeat split.
  intros between st2 api_key2 H2.
  rewrite <- H2 in Hne.
  match goal with
  | |- get_coordinates_for_store _ _ ?w2 = _ =>
      assert (Hhit : cache w2 !! normalize_address st2
                     = Some (sentinel (default JNull (dget (cps "status") data))))
  end.
  { rewrite H2. apply run_lookups_keeps_entries.
    cbn [with_cache cache]. apply lookup_insert_eq. }
  rewrite (lookup_hit st2 api_key2 _ _ Hne Hhit). reflexivity.
Qed.

(** ** Store phase *)

Lemma for_each_cons {A B} (f : A -> M B) (x : A) (xs : list A) (w : world) :
  for_each f (x :: xs) w =
  match f x w with
  | (Ok y, w') =>
      match for_each f xs w' with
      | (Ok ys, w'') => (Ok (y :: ys), w'')
      | (Raise e, w'') => (Raise e, w'')
      end
  | (Raise e, w') => (Raise e, w')
  end.
Proof.
  cbn [for_each]. run_monad.
  destruct (f x w) as [[y|e] w']; [|reflexivity].
  destruct (for_each f xs w') as [[ys|e] w'']; reflexivity.
Qed.

Lemma transform_store_world (st : store) (w : world) :
  snd (transform_store st w) = w.
Proof.
  unfold transform_store. run_monad.
  match goal with
  | |- context [get_coordinates_for_store ?s None w] =>
      pose proof (lookup_no_key_world s None w (or_introl eq_refl)) as Hw;
      destruct (get_coordinates_for_store s None w) as [[c|e] w']
  end; exact Hw.
Qed.

Lemma transform_store_miss (st st' : store) (w : world) :
  fst (transform_store st w) = Ok st' ->
  cache w !! normalize_address st = None ->
  st_coordinates st' = Some zero_coords.
Proof.
  unfold transform_store. run_monad. intros H Hc.
  match type of H with
  | context [get_coordinates_for_store ?s None w] =>
      rewrite (lookup_miss_no_key s None w (or_introl eq_refl) Hc) in H
  end.
  cbn [fst] in H. injection H as <-. reflexivity.
Qed.

Lemma transform_store_returns (st : store) (w : world) :
  entry_is_object (cache w) st ->
  exists st', fst (transform_store st w) = Ok st'.
Proof.
  intros Hobj. unfold transform_store. run_monad.
  match goal with
  | |- context [get_coordinates_for_store ?s None w] => set (st1 := s)
  end.
  assert (Ha : normalize_address st1 = normalize_address st) by reflexivity.
  destruct (normalize_address st) as [|c n] eqn:Hn.
  - rewrite (lookup_empty_address st1 None w Ha). eauto.
  - assert (Hne : normalize_address st1 <> []) by (rewrite Ha; discriminate).
    destruct (cache w !! normalize_address st1) as [cached|] eqn:Hc.
    + rewrite (lookup_hit _ _ _ _ Hne Hc).
      destruct (Hobj cached) as [d ->]; [now rewrite Hn, <- Ha|].
      cbn. eauto.
    + rewrite (lookup_miss_no_key st1 None w (or_introl eq_refl) Hc). eauto.
Qed.

Lemma for_each_transform_store_world (stores : list store) (w : world) :
  snd (for_each transform_store stores w) = w.
Proof.
  induction stores as [|st stores IH]; [reflexivity|].
  rewrite for_each_cons.
  pose proof (transform_store_world st w) as Hw.
  destruct (transform_store st w) as [[st'|e] w']; cbn [snd] in Hw; subst w';
    [|reflexivity].
  destruct (for_each transform_store stores w) as [[ys|e] w'']; exact IH.
Qed.

Lemma for_each_transform_store_miss (stores stores' : list store) (w : world) :
  fst (for_each transform_store stores w) = Ok stores' ->
  Forall2 (fun st st' => cache w !! normalize_address st = None ->
                         st_coordinates st' = Some zero_coords)
          stores stores'.
Proof.
  revert stores'. induction stores as [|st stores IH]; intros stores' H.
  - injection H as <-. constructor.
  - rewrite for_each_cons in H.
    pose proof (transform_store_world st w) as Hw.
    pose proof (fun st' => transform_store_miss st st' w) as Hm.
    destruct (transform_store st w) as [[st'|e] w']; cbn [snd fst] in Hw, Hm;
      subst w'; [|discriminate].
    destruct (for_each transform_store stores w) as [[ys|e] w''];
      [|discriminate].
    cbn [fst] in H, IH. injection H as <-.
    constructor; [now apply Hm | now apply IH].
Qed.

Lemma for_each_transform_store_returns (stores : list store) (w : world) :
  Forall (entry_is_object (cache w)) stores ->
  exists stores', fst (for_each transform_store stores w) = Ok stores'.
Proof.
  induction 1 as [|st stores Hst _ IH]; [now exists []|].
  rewrite for_each_cons.
  pose proof (transform_store_world st w) as Hw.
  destruct (transform_store_returns st w Hst) as [st' Hr].
  destruct (transform_store st w) as [[y|e] w']; cbn [snd fst] in Hw, Hr;
    subst w'; [|discriminate].
  destruct IH as [ys Hys].
  destruct (for_each transform_store stores w) as [[zs|e] w''];
    [|discriminate].
  eauto.
Qed.

(** What the phase does once the store export has been parsed. *)
Lemma transform_stores_run (w : world) (stores : list store) :
  in_stores w = Holds stores ->
  let w1 := with_cache (stored_mapping (geocode_cache_file w)) w in
  transform_stores w =
  match fst (for_each transform_store stores w1) with
  | Ok stores' => dump_out_stores stores' w1
  | Raise e => (Raise e, w1)
  end.
Proof.
  intros Hin. cbv zeta. unfold transform_stores. rewrite Hin.
  cbn [exists_ negb json_load].
  run_monad. rewrite load_geocode_cache_run.
  set (w1 := with_cache _ w).
  pose proof (for_each_transform_store_world stores w1) as Hw.
  destruct (for_each transform_store stores w1) as [[ys|e] w']; cbn [snd fst] in *;
    now subst w'.
Qed.

(** C3.  The phase looks coordinates up without a credential.  Whatever
    the service would answer, for every parsed store list and every
    cache file: no request is issued, the cache dictionary at the end is
    the mapping that was loaded, and when the phase completes every
    store whose normalized address is not a key of that mapping has the
    coordinates (0.0, 0.0).  The phase completes when the output can be
    written and the cached values it meets are JSON objects. *)
Theorem transform_stores_offline (w : world) (stores : list store) :
  in_stores w = Holds stores ->
  let loaded := stored_mapping (geocode_cache_file w) in
  requests (snd (transform_stores w)) = requests w
  /\ cache (snd (transform_stores w)) = loaded
  /\ (fst (transform_stores w) = Ok tt ->
      exists stores',
        out_stores (snd (transform_stores w)) = Holds stores'
        /\ Forall2 (fun st st' => loaded !! normalize_address st = None ->
                                  st_coordinates st' = Some zero_coords)
                   stores stores')
  /\ (out_stores_writable w = true ->
      Forall (entry_is_object loaded) stores ->
      fst (transform_stores w) = Ok tt).
Proof.
  intros Hin. cbv zeta. rewrite (transform_stores_run w stores Hin). cbv zeta.
  set (loaded := stored_mapping (geocode_cache_file w)).
  set (w1 := with_cache loaded w).
  pose proof (for_each_transform_store_miss stores) as Hmiss.
  pose proof (for_each_transform_store_returns stores w1) as Hret.
  specialize (fun s => Hmiss s w1).
  destruct (fst (for_each transform_store stores w1)) as [stores'|e].
  - unfold dump_out_stores. change (out_stores_writable w1) with (out_stores_writable w).
    destruct (out_stores_writable w); cbn [fst snd];
      (split; [reflexivity|]); (split; [reflexivity|]); split;
      try discriminate; try reflexivity.
    intros _. exists stores'. split; [reflexivity|]. now apply Hmiss.
  - cbn [fst snd]. split; [reflexivity|]. split; [reflexivity|].
    split; [discriminate|].
    intros _ Hobj. destruct (Hret Hobj) as [s Hs]. discriminate.
Qed.

(** C2 (amended).  The phase reads the geocode cache file and never
    writes it: after every run the cache file is what it was before.
    Either the phase stops before loading and changes nothing, or the
    cache dictionary it ends with is the mapping it loaded, unsaved. *)
Theorem transform_stores_keeps_cache_file (w : world) :
  geocode_cache_file (snd (transform_stores w)) = geocode_cache_file w
  /\ (snd (transform_stores w) = w
      \/ cache (snd (transform_stores w))
         = stored_mapping (geocode_cache_file w)).
Proof.
  destruct (in_stores w) as [| | |stores] eqn:Hin;
    try (unfold transform_stores; rewrite Hin; split; [|left]; reflexivity).
  rewrite (transform_stores_run w stores Hin). cbv zeta.
  destruct (fst (for_each transform_store stores _)) as [stores'|e];
    [|split; [|right]; reflexivity].
  unfold dump_out_stores. cbn [with_cache out_stores_writable].
  destruct (out_stores_writable w); split; try right; reflexivity.
Qed.

(** ** Price aggregation *)

Ltac taut := try clear nfd; tauto.

Lemma key_eqb_eq (a b : pystr * pystr) : key_eqb a b = true <-> a = b.
Proof. unfold key_eqb. apply bool_decide_eq_true. Qed.

Lemma key_in_spec (k : pystr * pystr) (m : list ((pystr * pystr) * raw_price)) :
  key_in k m = true <-> In k (List.map fst m).
Proof.
  unfold key_in. rewrite existsb_exists, in_map_iff.
  split; intros (e & H1 & H2); exists e.
  - split; [now apply key_eqb_eq | exact H1].
  - split; [exact H2 | now apply key_eqb_eq].
Qed.

Lemma group_step_keys (m : list ((pystr * pystr) * raw_price))
  (item : raw_price) (k : pystr * pystr) :
  In k (List.map fst (group_step m item))
  <-> In k (List.map fst m) \/ price_key item = k.
Proof.
  unfold group_step.
  destruct (key_in (price_key item) m) eqn:Hin; cbn [negb].
  - apply key_in_spec in Hin. split; [now left|]. now intros [H| <-].
  - rewrite map_app, in_app_iff. cbn.
    split; [intros [H|[H|[]]] | intros [H|H]]; auto.
Qed.

Lemma group_step_nodup (m : list ((pystr * pystr) * raw_price))
  (item : raw_price) :
  List.NoDup (List.map fst m) -> List.NoDup (List.map fst (group_step m item)).
Proof.
  intros Hm. unfold group_step.
  destruct (key_in (price_key item) m) eqn:Hin; cbn [negb]; [exact Hm|].
  rewrite map_app. cbn.
  apply (Permutation_NoDup (Permutation_cons_append _ _)).
  constructor; [|exact Hm].
  rewrite <- key_in_spec, Hin. discriminate.
Qed.

Lemma grouping_keys (inventory : list raw_price)
  (m : list ((pystr * pystr) * raw_price)) (k : pystr * pystr) :
  In k (List.map fst (fold_left group_step inventory m))
  <-> In k (List.map fst m) \/ In k (List.map price_key inventory).
Proof.
  revert m. induction inventory as [|item inventory IH]; intros m; cbn.
  - taut.
  - rewrite IH, group_step_keys. taut.
Qed.

Lemma grouping_nodup (inventory : list raw_price)
  (m : list ((pystr * pystr) * raw_price)) :
  List.NoDup (List.map fst m) ->
  List.NoDup (List.map fst (fold_left group_step inventory m)).
Proof.
  revert m. induction inventory as [|item inventory IH]; intros m Hm; cbn.
  - exact Hm.
  - now apply IH, group_step_nodup.
Qed.

Lemma grouping_first (inventory : list raw_price)
  (m : list ((pystr * pystr) * raw_price)) (k : pystr * pystr)
  (item : raw_price) :
  In (k, item) (fold_left group_step inventory m) ->
  In (k, item) m
  \/ (~ In k (List.map fst m)
      /\ List.find (fun x => key_eqb (price_key x) k) inventory = Some item).
Proof.
  revert m. induction inventory as [|x inventory IH]; intros m H; cbn in H.
  - now left.
  - apply IH in H as [H|[Hk Hf]].
    + unfold group_step in H.
      destruct (key_in (price_key x) m) eqn:Hin; cbn [negb] in H; [now left|].
      apply in_app_iff in H as [H|[H|[]]]; [now left|].
      injection H as <- <-. right. split.
      * rewrite <- key_in_spec, Hin. discriminate.
      * cbn. now rewrite (proj2 (key_eqb_eq _ _) eq_refl).
    + rewrite group_step_keys in Hk. right. split; [taut|].
      cbn. destruct (key_eqb (price_key x) k) eqn:He; [|exact Hf].
      apply key_eqb_eq in He. taut.
Qed.

Lemma grouping_skips_seen (l1 l2 : list raw_price) (item : raw_price)
  (m : list ((pystr * pystr) * raw_price)) :
  In (price_key item) (List.map price_key l1) ->
  fold_left group_step (l1 ++ item :: l2) m
  = fold_left group_step (l1 ++ l2) m.
Proof.
  intros Hseen. rewrite !fold_left_app. cbn. f_equal.
  unfold group_step.
  rewrite (proj2 (key_in_spec _ _)); [reflexivity|].
  apply grouping_keys. now right.
Qed.

Lemma insert_sorted_perm (x : retailer_price) (l : list retailer_price) :
  Permutation (insert_sorted x l) (x :: l).
Proof.
  induction l as [|y l IH]; cbn; [reflexivity|].
  destruct (key_ltb (sort_key y) (sort_key x)); [|reflexivity].
  rewrite IH. apply perm_swap.
Qed.

Lemma sort_transformed_perm (l : list retailer_price) :
  Permutation (sort_transformed l) l.
Proof.
  induction l as [|x l IH]; cbn; [reflexivity|].
  now rewrite insert_sorted_perm, IH.
Qed.

Lemma transformed_item_key (product_map : gmap pystr product)
  (current_time : pystr) (k : pystr * pystr) (item : raw_price) :
  sort_key (transformed_item product_map current_time (k, item)) = k.
Proof.
  destruct k as [r p]. cbn. now destruct (product_map !! p).
Qed.

Lemma transformed_item_price (product_map : gmap pystr product)
  (current_time : pystr) (k : pystr * pystr) (item : raw_price) :
  let o := transformed_item product_map current_time (k, item) in
  price o = default JNull (rp_price item)
  /\ currency o = default (JStr (cps "CHF")) (rp_currency item)
  /\ in_stock o = default (JBool false) (rp_in_stock item)
  /\ discount_active o = default (JBool false) (rp_discount_active item).
Proof.
  destruct k as [r p]. cbn. now destruct (product_map !! p).
Qed.

(** C1.  The aggregated list has exactly one record for each distinct
    (retailer, product) key of the raw records: its keys are those of
    the input, without repetition.  The record of a key is the document
    of the first raw record with that key, from which it takes price,
    currency, stock flag and discount flag.  A raw record whose key was
    seen earlier in the input has no effect on the output. *)
Theorem retailer_prices_first_seen (inventory : list raw_price)
  (product_map : gmap pystr product) (current_time : pystr) :
  let out := retailer_prices inventory product_map current_time in
  List.NoDup (List.map sort_key out)
  /\ (forall k, In k (List.map sort_key out)
                <-> In k (List.map price_key inventory))
  /\ (forall o, In o out ->
        exists item,
          List.find (fun x => key_eqb (price_key x) (sort_key o)) inventory
            = Some item
          /\ o = transformed_item product_map current_time (sort_key o, item)
          /\ price o = default JNull (rp_price item)
          /\ currency o = default (JStr (cps "CHF")) (rp_currency item)
          /\ in_stock o = default (JBool false) (rp_in_stock item)
          /\ discount_active o = default (JBool false) (rp_discount_active item))
  /\ (forall l1 item l2,
        inventory = l1 ++ item :: l2 ->
        In (price_key item) (List.map price_key l1) ->
        retailer_prices (l1 ++ l2) product_map current_time = out).
Proof.
  cbv zeta. unfold retailer_prices, retailer_prices_map.
  set (tr := transformed_item product_map current_time).
  assert (Hkeys : forall m, List.map sort_key (List.map tr m) = List.map fst m).
  { intros m. rewrite map_map. apply map_ext.
    intros [k item]. apply transformed_item_key. }
  assert (Hperm : Permutation
                    (List.map sort_key
                       (sort_transformed
                          (List.map tr (fold_left group_step inventory []))))
                    (List.map fst (fold_left group_step inventory []))).
  { rewrite <- Hkeys. apply Permutation_map, sort_transformed_perm. }
  split; [|split; [|split]].
  - apply (Permutation_NoDup (Permutation_sym Hperm)).
    apply grouping_nodup. constructor.
  - intros k. split; intros H.
    + apply (Permutation_in _ Hperm) in H.
      apply grouping_keys in H as [[]|H]. exact H.
    + apply (Permutation_in _ (Permutation_sym Hperm)).
      apply grouping_keys. now right.
  - intros o Ho.
    apply (Permutation_in _ (sort_transformed_perm _)) in Ho.
    apply in_map_iff in Ho as ([k item] & <- & Hin).
    apply grouping_first in Hin as [[]|[_ Hf]].
    exists item. unfold tr. rewrite transformed_item_key.
    split; [exact Hf|]. split; [reflexivity|].
    apply transformed_item_price.
  - intros l1 item l2 -> Hseen.
    now rewrite (grouping_skips_seen l1 l2 item [] Hseen).
Qed.

(** ** Further properties of the strings and of the address key *)

Ltac tauto_closed :=
  try clear service; try clear nfd; try clear lower; tauto.

Lemma not_space_32 (c : N) : isspace c = false -> c <> 32.
Proof. intros H ->. now rewrite isspace_space in H. Qed.

Lemma join_words_spaces (ws : list pystr) :
  Forall word ws ->
  Forall (fun c => isspace c = true -> c = 32) (join (cps " ") ws).
Proof.
  induction ws as [|w ws IH]; intros H; [constructor|].
  inversion H as [|? ? [_ Hw] Hws]; subst.
  assert (Hword : Forall (fun c => isspace c = true -> c = 32) w).
  { eapply List.Forall_impl; [|exact Hw]. cbn. congruence. }
  destruct ws as [|w2 ws']; [exact Hword|].
  change (join (cps " ") (w :: w2 :: ws'))
    with (w ++ 32 :: join (cps " ") (w2 :: ws')).
  apply Forall_app. split; [exact Hword|].
  constructor; [reflexivity | now apply IH].
Qed.

Lemma contains_skip_word (w tail : pystr) :
  Forall (fun c => isspace c = false) w ->
  contains (cps "  ") (w ++ tail) = contains (cps "  ") tail.
Proof.
  induction 1 as [|c w Hc _ IH]; [reflexivity|].
  cbn [app contains]. rewrite IH.
  apply not_space_32, N.eqb_neq in Hc.
  change (startswith (cps "  ") (c :: w ++ tail))
    with ((32 =? c) && startswith [32] (w ++ tail)).
  now rewrite N.eqb_sym, Hc.
Qed.

Lemma join_words_starts (w : pystr) (ws : list pystr) :
  Forall word (w :: ws) ->
  exists c t, join (cps " ") (w :: ws) = c :: t /\ isspace c = false.
Proof.
  intros H. inversion H as [|? ? [Hne Hw] _]; subst.
  destruct w as [|c w]; [congruence|].
  inversion Hw; subst.
  destruct ws; cbn; eauto.
Qed.

Lemma join_words_no_double_space (ws : list pystr) :
  Forall word ws -> contains (cps "  ") (join (cps " ") ws) = false.
Proof.
  induction ws as [|w ws IH]; intros H; [reflexivity|].
  inversion H as [|? ? [_ Hw] Hws]; subst.
  destruct ws as [|w2 ws'].
  - cbn [join]. rewrite <- (app_nil_r w). now rewrite contains_skip_word.
  - change (join (cps " ") (w :: w2 :: ws'))
      with (w ++ 32 :: join (cps " ") (w2 :: ws')).
    rewrite contains_skip_word by exact Hw.
    destruct (join_words_starts w2 ws' Hws) as (c & t & Hj & Hc).
    cbn [contains]. rewrite (IH Hws), Hj.
    apply not_space_32, N.eqb_neq in Hc.
    change (startswith (cps "  ") (32 :: c :: t))
      with ((32 =? 32) && ((32 =? c) && true)).
    now rewrite (N.eqb_sym 32 c), Hc.
Qed.

(** X1.  In a normalized address every white-space code point is the
    ASCII space and no two spaces are adjacent. *)
Theorem normalize_address_single_spaced (st : store) :
  Forall (fun c => isspace c = true -> c = 32) (normalize_address st)
  /\ contains (cps "  ") (normalize_address st) = false.
Proof.
  split.
  - apply join_words_spaces, split_words.
  - apply join_words_no_double_space, split_words.
Qed.

Lemma lstrip_snoc (y : pystr) (c : N) :
  isspace c = false -> lstrip (y ++ [c]) = lstrip y ++ [c].
Proof.
  intros Hc. induction y as [|d y IH]; cbn; [now rewrite Hc|].
  now destruct (isspace d).
Qed.

Lemma lstrip_starts (s : pystr) (c : N) (t : pystr) :
  lstrip s = c :: t -> isspace c = false.
Proof.
  induction s as [|d s IH]; cbn; [discriminate|].
  destruct (isspace d) eqn:Hd; [exact IH|]. now intros [= <- _].
Qed.

Lemma strip_starts (s : pystr) :
  strip s = [] \/ exists c t, strip s = c :: t /\ isspace c = false.
Proof.
  unfold strip, rstrip.
  destruct (lstrip s) as [|c t] eqn:Hl; [now left|].
  right. pose proof (lstrip_starts _ _ _ Hl) as Hc.
  cbn [rev]. rewrite (lstrip_snoc _ _ Hc), rev_unit. eauto.
Qed.

Lemma split_starts (c : N) (t : pystr) :
  isspace c = false -> exists w ws, split (c :: t) = (c :: w) :: ws.
Proof.
  intros Hc. cbn [split]. rewrite Hc.
  destruct t as [|d t']; [now exists [], []|].
  destruct (isspace d); [now eexists [], _|].
  destruct (split (d :: t')) as [|w ws]; cbn; eauto.
Qed.

Lemma join_nonempty (sep c : N) (w : pystr) (ws : list pystr) :
  join [sep] ((c :: w) :: ws) <> [].
Proof. destruct ws; discriminate. Qed.

(** X2.  The normalized address is empty exactly when the address and
    the location text are both blank (absent, empty or white space
    only); this is when a lookup answers (0.0, 0.0) without the cache. *)
Theorem normalize_address_empty_iff (st : store) :
  normalize_address st = []
  <-> strip (default [] (st_address st)) = []
      /\ strip (default [] (st_location_text st)) = [].
Proof.
  unfold normalize_address.
  set (a := strip (default [] (st_address st))).
  set (b := strip (default [] (st_location_text st))).
  split.
  - intros H.
    assert (Hstart : forall c t, join (cps ", ")
              (List.filter (fun p => negb (pystr_eqb p [])) [a; b]) = c :: t ->
              isspace c = false -> False).
    { intros c t Hj Hc. rewrite Hj in H.
      destruct (split_starts c t Hc) as (w & ws & Hs). rewrite Hs in H.
      exact (join_nonempty 32 c w ws H). }
    destruct (strip_starts (default [] (st_address st))) as [Ha|(c & t & Ha & Hc)];
      fold a in Ha.
    + split; [exact Ha|].
      destruct (strip_starts (default [] (st_location_text st)))
        as [Hb|(c & t & Hb & Hc)]; fold b in Hb; [exact Hb|].
      exfalso. apply (Hstart c t); [|exact Hc].
      rewrite Ha, Hb. cbn [List.filter]. rewrite pystr_eqb_nil_cons.
      reflexivity.
    + exfalso. rewrite Ha in Hstart. cbn [List.filter] in Hstart.
      rewrite pystr_eqb_nil_cons in Hstart. cbn [negb] in Hstart.
      destruct (negb (pystr_eqb b [])); eapply Hstart; try exact Hc;
        cbn; reflexivity.
  - intros [-> ->]. reflexivity.
Qed.

(** ** Further properties of the special characters *)

Lemma replace_absent (c : N) (r s : pystr) : ~ In c s -> replace c r s = s.
Proof.
  unfold replace. induction s as [|x s IH]; intros H; [reflexivity|].
  cbn. destruct (N.eqb_spec x c) as [->|_]; [exfalso; apply H; now left|].
  cbn. f_equal. apply IH. intros Hin. apply H. now right.
Qed.

(** X3.  Cleaning is idempotent, and the texts it leaves unchanged are
    exactly those without a ligature. *)
Theorem clean_special_chars_idempotent (text : option pystr) (t : pystr) :
  clean_special_chars (Some (clean_special_chars text))
  = clean_special_chars text
  /\ (clean_special_chars (Some t) = t
      <-> ~ In LIG_OE_CAPITAL t /\ ~ In LIG_OE_SMALL t).
Proof.
  assert (Hfix : forall s, ~ In LIG_OE_CAPITAL s -> ~ In LIG_OE_SMALL s ->
                           clean_special_chars (Some s) = s).
  { intros [|c s] H1 H2; [reflexivity|].
    unfold clean_special_chars.
    now rewrite (replace_absent _ _ _ H1), (replace_absent _ _ _ H2). }
  split.
  - apply Hfix; intros H;
      apply clean_special_chars_no_ligature in H; tauto_closed.
  - split; [|intros [H1 H2]; now apply Hfix].
    intros H. split; intros Hin; rewrite <- H in Hin;
      apply clean_special_chars_no_ligature in Hin; tauto_closed.
Qed.

(** ** Further properties of the cache store *)

(** X4.  Saving never raises and touches neither the cache dictionary
    nor the request log.  When the cache file can be opened for writing
    and the mapping holds no lone surrogate, a load after the save
    returns the saved mapping.  When it can be opened and the mapping
    holds a lone surrogate, the save leaves the file cut short, and a
    load after it returns the empty mapping.  When the file cannot be
    opened, the save changes nothing. *)
Theorem save_geocode_cache_round_trip (c : gmap pystr jval) (w : world) :
  fst (save_geocode_cache c w) = Ok tt
  /\ cache (snd (save_geocode_cache c w)) = cache w
  /\ requests (snd (save_geocode_cache c w)) = requests w
  /\ (if geocode_cache_file_writable w then
        if encodable_map c
        then fst (load_geocode_cache (snd (save_geocode_cache c w))) = Ok c
        else geocode_cache_file (snd (save_geocode_cache c w)) = Malformed
             /\ fst (load_geocode_cache (snd (save_geocode_cache c w))) = Ok ∅
      else snd (save_geocode_cache c w) = w).
Proof.
  unfold save_geocode_cache, catch, dump_geocode_cache_file, ret.
  destruct (geocode_cache_file_writable w) eqn:Hw; cbn [fst snd].
  - destruct (encodable_map c); cbn [fst snd]; repeat split.
  - repeat split.
Qed.

(** ** Further properties of the coordinate lookup *)

(** The four ways a lookup can go, by the normalized address, the cache
    and the credential. *)
Lemma lookup_cases (st : store) (api_key : option pystr) (w : world) :
  let a := normalize_address st in
  (a = [] /\ get_coordinates_for_store st api_key w = (Ok zero_coords, w))
  \/ (a <> [] /\ exists cached,
        cache w !! a = Some cached
        /\ get_coordinates_for_store st api_key w =
           (bind_result (get_method cached (cps "latitude") zero_float) (fun lat =>
            bind_result (get_method cached (cps "longitude") zero_float) (fun lng =>
            Ok {| latitude := lat; longitude := lng |})), w))
  \/ (a <> [] /\ cache w !! a = None
      /\ (api_key = None \/ api_key = Some [])
      /\ get_coordinates_for_store st api_key w = (Ok zero_coords, w))
  \/ (a <> [] /\ cache w !! a = None
      /\ exists k ey, api_key = Some (k :: ey)
         /\ get_coordinates_for_store st api_key w =
            let rq := {| req_address := a; req_key := k :: ey |} in
            let w1 := with_request rq w in
            match service (requests w) rq with
            | NoAnswer =>
                (Ok zero_coords,
                 with_cache (<[a := sentinel (JStr (cps "error"))]> (cache w)) w1)
            | Answer data =>
                match geocode_result data with
                | Ok result =>
                    (Ok {| latitude :=
                             default zero_float (dget (cps "latitude") result);
                           longitude :=
                             default zero_float (dget (cps "longitude") result) |},
                     with_cache (<[a := JDict result]> (cache w)) w1)
                | Raise e => (Raise e, w1)
                end
            end).
Proof.
  cbv zeta.
  destruct (normalize_address st) as [|c n] eqn:Hn.
  - left. split; [reflexivity|]. now apply lookup_empty_address.
  - right. rewrite <- Hn.
    assert (Hne : normalize_address st <> []) by (rewrite Hn; discriminate).
    destruct (cache w !! normalize_address st) as [cached|] eqn:Hc.
    + left. split; [exact Hne|]. exists cached. split; [reflexivity|].
      now apply lookup_hit.
    + right. destruct api_key as [[|k ey]|].
      * left. repeat split; auto. now apply lookup_miss_no_key; auto.
      * right. repeat split; auto. exists k, ey. split; [reflexivity|].
        now apply lookup_miss_key.
      * left. repeat split; auto. now apply lookup_miss_no_key; auto.
Qed.

(** X5.  With a credential, a lookup that returns is repeatable: after
    any further lookups, a lookup of the same normalized address, with
    or without a credential, returns the same coordinates and changes
    nothing (no request, no cache update). *)
Theorem lookup_repeatable (st : store) (k : N) (ey : pystr) (w : world)
  (coords : coords) :
  fst (get_coordinates_for_store st (Some (k :: ey)) w) = Ok coords ->
  forall (between : list (store * option pystr)) (st2 : store)
         (api_key2 : option pystr),
    normalize_address st2 = normalize_address st ->
    let w2 := run_lookups between
                (snd (get_coordinates_for_store st (Some (k :: ey)) w)) in
    get_coordinates_for_store st2 api_key2 w2 = (Ok coords, w2).
Proof.
  intros Hok between st2 api_key2 H2. cbv zeta.
  assert (Hhit : forall w1 cached,
            normalize_address st <> [] ->
            cache w1 !! normalize_address st = Some cached ->
            bind_result (get_method cached (cps "latitude") zero_float) (fun lat =>
            bind_result (get_method cached (cps "longitude") zero_float) (fun lng =>
            Ok {| latitude := lat; longitude := lng |})) = Ok coords ->
            get_coordinates_for_store st2 api_key2 (run_lookups between w1)
            = (Ok coords, run_lookups between w1)).
  { intros w1 cached Hne Hc Hr. rewrite <- H2 in Hne, Hc.
    rewrite (lookup_hit st2 api_key2 _ cached Hne); [now rewrite Hr|].
    now apply run_lookups_keeps_entries. }
  destruct (lookup_cases st (Some (k :: ey)) w)
    as [[Ha Hr]|[(Hne & cached & Hc & Hr)|[(Hne & Hc & [Hk|Hk] & Hr)
        |(Hne & Hc & k' & ey' & Hk & Hr)]]];
    try discriminate; rewrite Hr in Hok |- *; cbv zeta in *.
  - cbn [fst snd] in *. injection Hok as <-.
    apply lookup_empty_address. now rewrite H2.
  - cbn [fst snd] in *. now apply (Hhit w cached).
  - injection Hk as <- <-.
    destruct (service _ _) as [|data].
    + cbn [fst snd] in *. injection Hok as <-.
      eapply Hhit; [exact Hne | apply lookup_insert_eq | reflexivity].
    + destruct (geocode_result data) as [result|e]; cbn [fst snd] in *;
        [|discriminate].
      injection Hok as <-.
      eapply Hhit; [exact Hne | apply lookup_insert_eq | reflexivity].
Qed.

(** X6.  A lookup issues at most one request, and only when it has a
    credential, the normalized address is not empty and is not cached;
    the request carries that address and that credential. *)
Theorem lookup_requests (st : store) (api_key : option pystr) (w : world) :
  let a := normalize_address st in
  let w' := snd (get_coordinates_for_store st api_key w) in
  requests w' = requests w
  \/ (exists key, api_key = Some key /\ key <> [] /\ a <> []
        /\ cache w !! a = None
        /\ requests w' = requests w ++ [{| req_address := a; req_key := key |}]).
Proof.
  cbv zeta.
  destruct (lookup_cases st api_key w)
    as [[Ha Hr]|[(Hne & cached & Hc & Hr)|[(Hne & Hc & Hk & Hr)
        |(Hne & Hc & k & ey & Hk & Hr)]]]; rewrite Hr; cbv zeta;
    try (left; reflexivity).
  right. exists (k :: ey). repeat split; auto; try discriminate.
  destruct (service _ _) as [|data]; [reflexivity|].
  destruct (geocode_result data); reflexivity.
Qed.

(** X7.  A lookup touches no file.  It changes the cache dictionary
    only by adding the normalized address, which was absent, and only
    when it returns: a lookup that raises leaves the cache as it was. *)
Theorem lookup_cache_change (st : store) (api_key : option pystr) (w : world) :
  let a := normalize_address st in
  let r := get_coordinates_for_store st api_key w in
  geocode_cache_file (snd r) = geocode_cache_file w
  /\ in_stores (snd r) = in_stores w
  /\ out_stores (snd r) = out_stores w
  /\ (cache (snd r) = cache w
      \/ exists d coords,
           cache w !! a = None
           /\ cache (snd r) = <[a := JDict d]> (cache w)
           /\ fst r = Ok coords)
  /\ (forall e, fst r = Raise e -> cache (snd r) = cache w).
Proof.
  cbv zeta.
  destruct (lookup_cases st api_key w)
    as [[Ha Hr]|[(Hne & cached & Hc & Hr)|[(Hne & Hc & Hk & Hr)
        |(Hne & Hc & k & ey & Hk & Hr)]]]; rewrite Hr; cbv zeta;
    try (repeat split; auto; fail).
  destruct (service _ _) as [|data].
  - repeat split; [|discriminate]. right. eexists _, _.
    split; [exact Hc|]. split; reflexivity.
  - destruct (geocode_result data) as [result|e].
    + repeat split; [|discriminate]. right. eexists _, _.
      split; [exact Hc|]. split; reflexivity.
    + repeat split; auto.
Qed.

(** X8.  When the service cannot be reached, a lookup with a credential
    for an uncached address returns (0.0, 0.0) and caches the sentinel
    with status "error": the failure is not retried. *)
Theorem lookup_transport_failure (st : store) (k : N) (ey : pystr)
  (w : world) :
  let a := normalize_address st in
  let rq := {| req_address := a; req_key := k :: ey |} in
  a <> [] ->
  cache w !! a = None ->
  service (requests w) rq = NoAnswer ->
  get_coordinates_for_store st (Some (k :: ey)) w =
  (Ok zero_coords,
   with_cache (<[a := sentinel (JStr (cps "error"))]> (cache w))
     (with_request rq w)).
Proof.
  cbv zeta. intros Hne Hc Hs.
  now rewrite (lookup_miss_key _ _ _ _ Hne Hc), Hs.
Qed.

(** X9.  When the service answers OK with a first result that has a
    located geometry, a lookup with a credential for an uncached address
    returns that latitude and longitude and caches them with status OK
    and the location type as accuracy, "UNKNOWN" when there is none. *)
Theorem lookup_success (st : store) (k : N) (ey : pystr) (w : world)
  (data first geometry location : dict) (more : list jval) (lat lng : jval) :
  let a := normalize_address st in
  let rq := {| req_address := a; req_key := k :: ey |} in
  a <> [] ->
  cache w !! a = None ->
  service (requests w) rq = Answer (JDict data) ->
  dget (cps "status") data = Some (JStr (cps "OK")) ->
  dget (cps "results") data = Some (JList (JDict first :: more)) ->
  dget (cps "geometry") first = Some (JDict geometry) ->
  dget (cps "location") geometry = Some (JDict location) ->
  dget (cps "lat") location = Some lat ->
  dget (cps "lng") location = Some lng ->
  get_coordinates_for_store st (Some (k :: ey)) w =
  (Ok {| latitude := lat; longitude := lng |},
   with_cache
     (<[a := JDict
               [ (cps "latitude", lat); (cps "longitude", lng);
                 (cps "status", JStr (cps "OK"));
                 (cps "accuracy",
                  default (JStr (cps "UNKNOWN"))
                    (dget (cps "location_type") geometry)) ]]> (cache w))
     (with_request rq w)).
Proof.
  cbv zeta. intros Hne Hc Hs Hst Hres Hgeo Hloc Hlat Hlng.
  rewrite (lookup_miss_key _ _ _ _ Hne Hc), Hs.
  unfold geocode_result, get_method, subscript, subscript0, bind_result.
  rewrite Hst, Hres. cbn [default from_option id is_OK truthy negb orb].
  change (pystr_eqb (cps "OK") (cps "OK")) with true. cbn [negb orb].
  rewrite Hgeo, Hloc, Hlat, Hlng. reflexivity.
Qed.

(** ** Further properties of the store phase *)

Lemma lookup_same_address (st1 st2 : store) (api_key : option pystr)
  (w : world) :
  normalize_address st1 = normalize_address st2 ->
  get_coordinates_for_store st1 api_key w
  = get_coordinates_for_store st2 api_key w.
Proof.
  intros H. unfold get_coordinates_for_store. now rewrite H.
Qed.

Lemma transform_store_fields (st st' : store) (w : world) :
  fst (transform_store st w) = Ok st' ->
  st_name st' = st_name st
  /\ st_address st' = st_address st
  /\ st_location_text st' = st_location_text st
  /\ st_other st' = st_other st
  /\ st_geo_point st' = None
  /\ st_retailer_id st' = Some (extract_retailer_id (default [] (st_name st)))
  /\ st_store_id st'
     = Some match st_store_id st with
            | Some i => i
            | None => cps "unknown_" ++ lower (default (cps "store") (st_name st))
            end
  /\ exists c, st_coordinates st' = Some c
               /\ fst (get_coordinates_for_store st None w) = Ok c.
Proof.
  unfold transform_store. run_monad.
  match goal with
  | |- context [get_coordinates_for_store ?s None w] =>
      rewrite (lookup_same_address s st None w eq_refl)
  end.
  destruct (get_coordinates_for_store st None w) as [[c|e] w'];
    cbn [fst]; [|discriminate].
  intros [= <-]. cbn.
  repeat split; try (now destruct (st_store_id st)).
  exists c. now destruct c.
Qed.

(** X10.  When the store phase completes, the output has one store per
    input store, in order.  Each keeps its name, address, location text
    and other keys, has lost [geo_point], has the retailer classified
    from its name, has a store id (its own, or "unknown_" and the
    lower-cased name) and has the coordinates a lookup without
    credential gives on the loaded cache. *)
Theorem transform_stores_output (w : world) (stores : list store) :
  in_stores w = Holds stores ->
  fst (transform_stores w) = Ok tt ->
  exists stores',
    out_stores (snd (transform_stores w)) = Holds stores'
    /\ Forall2
         (fun st st' =>
            st_name st' = st_name st
            /\ st_address st' = st_address st
            /\ st_location_text st' = st_location_text st
            /\ st_other st' = st_other st
            /\ st_geo_point st' = None
            /\ st_retailer_id st'
               = Some (extract_retailer_id (default [] (st_name st)))
            /\ st_store_id st'
               = Some match st_store_id st with
                      | Some i => i
                      | None => cps "unknown_"
                                ++ lower (default (cps "store") (st_name st))
                      end
            /\ exists c,
                 st_coordinates st' = Some c
                 /\ fst (get_coordinates_for_store st None
                           (with_cache (stored_mapping (geocode_cache_file w)) w))
                    = Ok c)
         stores stores'.
Proof.
  intros Hin. rewrite (transform_stores_run w stores Hin). cbv zeta.
  set (w1 := with_cache _ w).
  assert (Hall : forall ss ss',
            fst (for_each transform_store ss w1) = Ok ss' ->
            Forall2 (fun st st' => fst (transform_store st w1) = Ok st') ss ss').
  { induction ss as [|st ss IH]; intros ss' H.
    - injection H as <-. constructor.
    - rewrite for_each_cons in H.
      pose proof (transform_store_world st w1) as Hw.
      destruct (transform_store st w1) as [[st'|e] w'] eqn:Hst;
        cbn [snd fst] in Hw; subst w'; [|discriminate].
      destruct (for_each transform_store ss w1) as [[ys|e] w''];
        [|discriminate].
      cbn [fst] in H, IH. injection H as <-.
      constructor; [now rewrite Hst | now apply IH]. }
  destruct (fst (for_each transform_store stores w1)) as [stores'|e] eqn:Hfor;
    [|discriminate].
  unfold dump_out_stores.
  destruct (out_stores_writable w1); [|discriminate].
  intros _. exists stores'. split; [reflexivity|].
  eapply Forall2_impl; [exact (Hall stores stores' Hfor)|].
  intros st st' H. now apply transform_store_fields.
Qed.

(** X11.  The loop body is idempotent: a store the phase has produced
    is returned unchanged when the phase body runs on it again with the
    same cache, and so is a whole list of them. *)
Theorem transform_store_idempotent (w : world) :
  (forall st st', fst (transform_store st w) = Ok st' ->
                  transform_store st' w = (Ok st', w))
  /\ (forall stores stores',
        fst (for_each transform_store stores w) = Ok stores' ->
        for_each transform_store stores' w = (Ok stores', w)).
Proof.
  assert (Hone : forall st st', fst (transform_store st w) = Ok st' ->
                                transform_store st' w = (Ok st', w)).
  { intros st st' H.
    pose proof (transform_store_fields st st' w H)
      as (Hn & Ha & Hl & Ho & Hg & Hr & Hi & c & Hc & Hlook).
    unfold transform_store. run_monad.
    match goal with
    | |- context [get_coordinates_for_store ?s None w] =>
        rewrite (lookup_same_address s st None w)
    end.
    2:{ unfold normalize_address. cbn. now rewrite Ha, Hl. }
    pose proof (lookup_no_key_world st None w (or_introl eq_refl)) as Hw.
    destruct (get_coordinates_for_store st None w) as [[c'|e] w'];
      cbn [fst snd] in *; [|discriminate].
    subst w'. injection Hlook as ->.
    f_equal. f_equal.
    destruct st' as [i' n' a' l' g' r' c'' o']. cbn in *. subst.
    destruct c. reflexivity. }
  split; [exact Hone|].
  induction stores as [|st stores IH]; intros stores' H.
  - injection H as <-. reflexivity.
  - rewrite for_each_cons in H.
    pose proof (transform_store_world st w) as Hw.
    destruct (transform_store st w) as [[st'|e] w'] eqn:Hst;
      cbn [snd fst] in Hw; subst w'; [|discriminate].
    pose proof (for_each_transform_store_world stores w) as Hw2.
    destruct (for_each transform_store stores w) as [[ys|e] w''] eqn:Hfor;
      cbn [snd fst] in Hw2; subst; [|discriminate].
    cbn [fst] in H. injection H as <-.
    rewrite for_each_cons, (Hone st st') by now rewrite Hst.
    now rewrite (IH ys eq_refl).
Qed.

Lemma transform_store_exception (st : store) (w : world) (e : exn) :
  fst (transform_store st w) = Raise e -> e = AttributeError.
Proof.
  unfold transform_store. run_monad.
  match goal with
  | |- context [get_coordinates_for_store ?s None w] => set (st1 := s)
  end.
  destruct (normalize_address st1) as [|c n] eqn:Hn.
  - rewrite (lookup_empty_address st1 None w Hn). discriminate.
  - assert (Hne : normalize_address st1 <> []) by (rewrite Hn; discriminate).
    destruct (cache w !! normalize_address st1) as [cached|] eqn:Hc.
    + rewrite (lookup_hit _ _ _ _ Hne Hc).
      destruct cached; cbn; congruence.
    + rewrite (lookup_miss_no_key st1 None w (or_introl eq_refl) Hc).
      discriminate.
Qed.

Lemma transform_store_raises (st : store) (w : world) (v : jval) :
  normalize_address st <> [] ->
  cache w !! normalize_address st = Some v ->
  (forall d, v <> JDict d) ->
  fst (transform_store st w) = Raise AttributeError.
Proof.
  intros Hne Hc Hv. unfold transform_store. run_monad.
  match goal with
  | |- context [get_coordinates_for_store ?s None w] => set (st1 := s)
  end.
  assert (Ha : normalize_address st1 = normalize_address st) by reflexivity.
  rewrite <- Ha in Hne, Hc.
  rewrite (lookup_hit _ _ _ _ Hne Hc).
  destruct v; try reflexivity. now destruct (Hv d).
Qed.

Lemma for_each_transform_store_raises (stores : list store) (w : world) :
  Exists (fun st => normalize_address st <> []
                    /\ exists v, cache w !! normalize_address st = Some v
                                 /\ forall d, v <> JDict d)
         stores ->
  fst (for_each transform_store stores w) = Raise AttributeError.
Proof.
  induction 1 as [st stores (Hne & v & Hc & Hv)|st stores _ IH];
    rewrite for_each_cons;
    pose proof (transform_store_world st w) as Hw;
    pose proof (transform_store_exception st w) as He.
  - pose proof (transform_store_raises st w v Hne Hc Hv) as Hr.
    destruct (transform_store st w) as [[y|e] w']; cbn [fst snd] in *;
      congruence.
  - destruct (transform_store st w) as [[y|e] w']; cbn [fst snd] in *;
      subst w'.
    + destruct (for_each transform_store stores w) as [[ys|e] w''];
        cbn [fst] in *; congruence.
    + now rewrite (He e eq_refl).
Qed.

(** X12.  The store phase raises FileNotFoundError when the store export
    is absent, and the read or parse error when the export cannot be
    loaded, changing nothing.  When the cache file holds, for the
    address of some store, a value that is not a JSON object, the phase
    raises AttributeError in its loop, before it opens the output: the
    files are as they were and the cache dictionary is the loaded
    mapping.  The phase cannot complete when the output cannot be
    opened for writing. *)
Theorem transform_stores_failure (w : world) :
  match in_stores w with
  | Absent => transform_stores w = (Raise FileNotFoundError, w)
  | Unreadable => transform_stores w = (Raise OSError, w)
  | Malformed => transform_stores w = (Raise JSONDecodeError, w)
  | Holds stores =>
      let loaded := stored_mapping (geocode_cache_file w) in
      Exists (fun st => normalize_address st <> []
                        /\ exists v, loaded !! normalize_address st = Some v
                                     /\ forall d, v <> JDict d)
             stores ->
      transform_stores w = (Raise AttributeError, with_cache loaded w)
  end
  /\ (if out_stores_writable w then True
      else fst (transform_stores w) <> Ok tt).
Proof.
  destruct (in_stores w) as [| | |stores] eqn:Hin.
  1-3: unfold transform_stores; rewrite Hin; cbn;
       (split; [reflexivity|]);
       destruct (out_stores_writable w); [exact I | discriminate].
  rewrite (transform_stores_run w stores Hin). cbv zeta.
  split.
  - intros Hex.
    now rewrite (for_each_transform_store_raises stores (with_cache _ w) Hex).
  - destruct (fst (for_each transform_store stores _)) as [stores'|e].
    + unfold dump_out_stores. cbn [with_cache out_stores_writable].
      destruct (out_stores_writable w); cbn [fst snd];
        [exact I | discriminate].
    + cbn [fst snd]. destruct (out_stores_writable w); [exact I | discriminate].
Qed.

(** ** Further properties of the price aggregation *)

Lemma str_ltb_irrefl (a : pystr) : str_ltb a a = false.
Proof.
  induction a as [|x a IH]; [reflexivity|].
  cbn. now rewrite N.ltb_irrefl, N.eqb_refl, IH.
Qed.

Lemma str_ltb_cons (x y : N) (a b : pystr) :
  str_ltb (x :: a) (y :: b) = true
  <-> (x < y)%N \/ (x = y /\ str_ltb a b = true).
Proof.
  cbn. now rewrite orb_true_iff, andb_true_iff, N.ltb_lt, N.eqb_eq.
Qed.

Lemma str_ltb_trans (a b c : pystr) :
  str_ltb a b = true -> str_ltb b c = true -> str_ltb a c = true.
Proof.
  revert b c. induction a as [|x a IH]; intros [|y b] [|z c]; try easy.
  rewrite !str_ltb_cons. intros [H1|[-> H1]] [H2|[-> H2]].
  - left. lia.
  - now left.
  - now left.
  - right. split; [reflexivity|]. now apply (IH b).
Qed.

Lemma str_ltb_total (a b : pystr) :
  str_ltb a b = true \/ a = b \/ str_ltb b a = true.
Proof.
  revert b. induction a as [|x a IH]; intros [|y b]; auto.
  rewrite !str_ltb_cons.
  destruct (N.lt_trichotomy x y) as [H|[->|H]]; auto.
  destruct (IH b) as [H|[->|H]]; auto.
Qed.

Lemma key_ltb_spec (a b : pystr * pystr) :
  key_ltb a b = true
  <-> str_ltb (fst a) (fst b) = true
      \/ (fst a = fst b /\ str_ltb (snd a) (snd b) = true).
Proof.
  unfold key_ltb, pystr_eqb.
  now rewrite orb_true_iff, andb_true_iff, bool_decide_eq_true.
Qed.

Lemma key_ltb_irrefl (a : pystr * pystr) : key_ltb a a = false.
Proof.
  apply not_true_is_false. rewrite key_ltb_spec, !str_ltb_irrefl.
  intros [H|[_ H]]; discriminate.
Qed.

Lemma key_ltb_trans (a b c : pystr * pystr) :
  key_ltb a b = true -> key_ltb b c = true -> key_ltb a c = true.
Proof.
  rewrite !key_ltb_spec. intros [H1|[E1 H1]] [H2|[E2 H2]].
  - left. now apply (str_ltb_trans _ (fst b)).
  - left. now rewrite <- E2.
  - left. now rewrite E1.
  - right. split; [congruence|]. now apply (str_ltb_trans _ (snd b)).
Qed.

Lemma key_ltb_total (a b : pystr * pystr) :
  key_ltb a b = true \/ a = b \/ key_ltb b a = true.
Proof.
  rewrite !key_ltb_spec. destruct a as [a1 a2], b as [b1 b2]; cbn.
  destruct (str_ltb_total a1 b1) as [H|[->|H]]; auto.
  destruct (str_ltb_total a2 b2) as [H|[->|H]]; auto.
Qed.

Lemma key_ltb_asym (a b : pystr * pystr) :
  key_ltb a b = true -> key_ltb b a = false.
Proof.
  intros H. apply not_true_is_false. intros H'.
  pose proof (key_ltb_trans _ _ _ H H') as Hc.
  now rewrite key_ltb_irrefl in Hc.
Qed.

(** Not greater, the order the insertion keeps. *)
Lemma key_not_gt_trans (a b c : pystr * pystr) :
  key_ltb b a = false -> key_ltb c b = false -> key_ltb c a = false.
Proof.
  intros H1 H2. apply not_true_is_false. intros H3.
  destruct (key_ltb_total a b) as [H|[->|H]]; [|congruence..].
  rewrite (key_ltb_trans _ _ _ H3 H) in H2. discriminate.
Qed.

Lemma insert_sorted_sorted (x : retailer_price) (l : list retailer_price) :
  StronglySorted (fun a b => key_ltb (sort_key b) (sort_key a) = false) l ->
  StronglySorted (fun a b => key_ltb (sort_key b) (sort_key a) = false)
                 (insert_sorted x l).
Proof.
  induction 1 as [|y l Hl IH Hy]; cbn; [repeat constructor|].
  destruct (key_ltb (sort_key y) (sort_key x)) eqn:Hyx.
  - constructor; [exact IH|].
    apply (Permutation_Forall (Permutation_sym (insert_sorted_perm x l))).
    constructor; [now apply key_ltb_asym | exact Hy].
  - constructor; [now constructor|].
    constructor; [exact Hyx|].
    eapply List.Forall_impl; [|exact Hy].
    intros z Hz. now apply (key_not_gt_trans _ (sort_key y)).
Qed.

Lemma sort_transformed_sorted (l : list retailer_price) :
  StronglySorted (fun a b => key_ltb (sort_key b) (sort_key a) = false)
                 (sort_transformed l).
Proof.
  induction l as [|x l IH]; cbn; [constructor|].
  now apply insert_sorted_sorted.
Qed.

Lemma sorted_distinct_strict (l : list retailer_price) :
  List.NoDup (List.map sort_key l) ->
  StronglySorted (fun a b => key_ltb (sort_key b) (sort_key a) = false) l ->
  StronglySorted (fun a b => key_ltb (sort_key a) (sort_key b) = true) l.
Proof.
  intros Hnd Hs. induction Hs as [|x l Hl IH Hx]; [constructor|].
  cbn in Hnd. inversion Hnd as [|? ? Hnot Hnd']; subst.
  constructor; [now apply IH|].
  apply List.Forall_forall. intros y Hy.
  rewrite List.Forall_forall in Hx. specialize (Hx y Hy).
  destruct (key_ltb_total (sort_key x) (sort_key y)) as [H|[H|H]];
    [exact H | | congruence].
  exfalso. apply Hnot. rewrite H. now apply in_map.
Qed.

Lemma retailer_prices_keys_nodup (inventory : list raw_price)
  (product_map : gmap pystr product) (current_time : pystr) :
  List.NoDup (List.map sort_key
                (retailer_prices inventory product_map current_time)).
Proof.
  unfold retailer_prices, retailer_prices_map.
  eapply Permutation_NoDup.
  - apply Permutation_sym, Permutation_map, sort_transformed_perm.
  - rewrite map_map.
    rewrite (map_ext _ fst); [apply grouping_nodup; constructor|].
    intros [k item]. apply transformed_item_key.
Qed.

(** X13.  The aggregated list is strictly ascending by (retailer
    identifier, product identifier), strings compared by code points. *)
Theorem retailer_prices_sorted (inventory : list raw_price)
  (product_map : gmap pystr product) (current_time : pystr) :
  StronglySorted (fun a b => key_ltb (sort_key a) (sort_key b) = true)
                 (retailer_prices inventory product_map current_time).
Proof.
  apply sorted_distinct_strict; [apply retailer_prices_keys_nodup|].
  apply sort_transformed_sorted.
Qed.

(** X14.  Every aggregated record has the document identifier
    retailer_product and the timestamp of the run; it carries the name,
    image, category, type, keywords and unit of the product with its
    identifier when the product map has one, and null fields with an
    empty keyword list when it has none. *)
Theorem retailer_prices_denormalized (inventory : list raw_price)
  (product_map : gmap pystr product) (current_time : pystr) :
  Forall
    (fun o =>
       doc_id o = retailer_id o ++ cps "_" ++ product_id o
       /\ last_updated o = current_time
       /\ match product_map !! product_id o with
          | Some p =>
              product_name o = default JNull (p_name p)
              /\ product_image o = default JNull (p_image_url p)
              /\ category o = default JNull (p_category p)
              /\ product_type o = default JNull (p_product_type p)
              /\ keywords o = default (JList []) (p_keywords p)
              /\ unit_ o = default JNull (p_general_unit p)
          | None =>
              product_name o = JNull /\ product_image o = JNull
              /\ category o = JNull /\ product_type o = JNull
              /\ keywords o = JList [] /\ unit_ o = JNull
          end)
    (retailer_prices inventory product_map current_time).
Proof.
  unfold retailer_prices.
  apply (Permutation_Forall (Permutation_sym (sort_transformed_perm _))).
  apply List.Forall_forall. intros o Ho.
  apply in_map_iff in Ho as ([[r p] item] & <- & _).
  cbn. destruct (product_map !! p) eqn:Hp; cbn; rewrite Hp; now repeat split.
Qed.

(** X15.  In the product map the last product of the list with a given
    identifier wins, and an identifier no product has is absent. *)
Theorem product_map_of_last_wins (products : list product) (k : pystr) :
  product_map_of products !! k
  = List.find (fun p => pystr_eqb (p_product_id p) k) (rev products).
Proof.
  unfold product_map_of.
  induction products as [|p products IH] using rev_ind; [reflexivity|].
  rewrite fold_left_app, rev_unit. cbn.
  unfold pystr_eqb. destruct (decide (p_product_id p = k)) as [<-|Hne].
  - rewrite bool_decide_eq_true_2 by reflexivity. apply lookup_insert_eq.
  - rewrite bool_decide_eq_false_2 by exact Hne.
    now rewrite lookup_insert_ne.
Qed.

Lemma grouping_length (inventory : list raw_price)
  (m : list ((pystr * pystr) * raw_price)) :
  (length (fold_left group_step inventory m) <= length m + length inventory)%nat.
Proof.
  revert m. induction inventory as [|item inventory IH]; intros m; cbn; [lia|].
  etransitivity; [apply IH|].
  unfold group_step. destruct (negb _); [rewrite length_app; cbn|]; lia.
Qed.

Lemma retailer_id_range (s : pystr) :
  In (extract_retailer_id s)
     [cps "unknown"; cps "migros"; cps "coop"; cps "denner"; cps "aldi";
      cps "aligro"; cps "other"].
Proof.
  unfold extract_retailer_id. destruct s as [|c s]; [now left|].
  repeat match goal with
         | |- context [if ?b then _ else _] => destruct b
         end; cbn; tauto_closed.
Qed.

(** X16.  The aggregated list is never longer than the raw list, and
    every record's retailer is one of migros, coop, denner, aldi,
    aligro, other and unknown. *)
Theorem retailer_prices_bounded (inventory : list raw_price)
  (product_map : gmap pystr product) (current_time : pystr) :
  (length (retailer_prices inventory product_map current_time)
   <= length inventory)%nat
  /\ Forall (fun o => In (retailer_id o)
                        [cps "unknown"; cps "migros"; cps "coop"; cps "denner";
                         cps "aldi"; cps "aligro"; cps "other"])
            (retailer_prices inventory product_map current_time).
Proof.
  unfold retailer_prices. split.
  - rewrite (Permutation_length (sort_transformed_perm _)), length_map.
    apply (grouping_length inventory []).
  - apply List.Forall_forall. intros o Ho.
    assert (Hk : In (sort_key o) (List.map price_key inventory)).
    { apply (Permutation_in _ (sort_transformed_perm _)) in Ho.
      apply in_map_iff in Ho as ([k item] & <- & Hin).
      rewrite transformed_item_key.
      apply (in_map fst) in Hin. cbn in Hin.
      apply grouping_keys in Hin as [[]|Hin]. exact Hin. }
    apply in_map_iff in Hk as (item & Hk & _).
    apply (f_equal fst) in Hk. cbn in Hk. rewrite <- Hk.
    apply retailer_id_range.
Qed.

Lemma grouping_distinct (inventory : list raw_price)
  (m : list ((pystr * pystr) * raw_price)) :
  List.NoDup (List.map price_key inventory) ->
  (forall x, In x inventory -> ~ In (price_key x) (List.map fst m)) ->
  fold_left group_step inventory m
  = m ++ List.map (fun x => (price_key x, x)) inventory.
Proof.
  revert m. induction inventory as [|x inventory IH]; intros m Hnd Hm; cbn.
  - now rewrite app_nil_r.
  - inversion Hnd as [|? ? Hx Hnd']; subst.
    assert (Hstep : group_step m x = m ++ [(price_key x, x)]).
    { unfold group_step.
      destruct (key_in (price_key x) m) eqn:Hin; [|reflexivity].
      apply key_in_spec in Hin. exfalso. apply (Hm x); [now left | exact Hin]. }
    rewrite Hstep, IH, <- app_assoc; [reflexivity | exact Hnd' |].
    intros y Hy. rewrite map_app, in_app_iff. cbn.
    intros [H|[H|[]]].
    + apply (Hm y); [now right | exact H].
    + apply Hx. rewrite H. now apply in_map.
Qed.

Lemma strictly_sorted_unique (l1 l2 : list retailer_price) :
  StronglySorted (fun a b => key_ltb (sort_key a) (sort_key b) = true) l1 ->
  StronglySorted (fun a b => key_ltb (sort_key a) (sort_key b) = true) l2 ->
  Permutation l1 l2 -> l1 = l2.
Proof.
  intros H1. revert l2. induction H1 as [|x l1 Hl1 IH Hx]; intros l2 H2 Hp.
  - now apply Permutation_nil in Hp.
  - destruct H2 as [|y l2 Hl2 Hy].
    + apply Permutation_sym, Permutation_nil in Hp. discriminate.
    + assert (Hxy : x = y).
      { assert (Hin1 : In x (y :: l2)) by (apply (Permutation_in _ Hp); now left).
        assert (Hin2 : In y (x :: l1))
          by (apply (Permutation_in _ (Permutation_sym Hp)); now left).
        destruct Hin1 as [->|Hin1]; [reflexivity|].
        destruct Hin2 as [->|Hin2]; [reflexivity|].
        rewrite List.Forall_forall in Hx, Hy.
        pose proof (key_ltb_asym _ _ (Hx y Hin2)) as Ha.
        rewrite (Hy x Hin1) in Ha. discriminate. }
      subst y. f_equal. apply IH; [exact Hl2|].
      now apply Permutation_cons_inv in Hp.
Qed.

(** X17.  When no two raw records share a key, the aggregated list does
    not depend on the order of the raw records. *)
Theorem retailer_prices_order_independent (inventory inventory' : list raw_price)
  (product_map : gmap pystr product) (current_time : pystr) :
  List.NoDup (List.map price_key inventory) ->
  Permutation inventory inventory' ->
  retailer_prices inventory product_map current_time
  = retailer_prices inventory' product_map current_time.
Proof.
  intros Hnd Hp.
  assert (Hnd' : List.NoDup (List.map price_key inventory'))
    by (eapply Permutation_NoDup; [apply Permutation_map, Hp | exact Hnd]).
  apply strictly_sorted_unique.
  - apply sorted_distinct_strict;
      [apply retailer_prices_keys_nodup | apply sort_transformed_sorted].
  - apply sorted_distinct_strict;
      [apply retailer_prices_keys_nodup | apply sort_transformed_sorted].
  - unfold retailer_prices, retailer_prices_map.
    rewrite !sort_transformed_perm.
    rewrite !grouping_distinct by (assumption || (intros ? _ [])).
    cbn [app]. now rewrite Hp.
Qed.

(** ** The retailer catalog and phases 1, 3 and 4 *)

(** X18.  The classifier names a retailer of the catalog exactly when
    the name is not empty: "unknown", its answer to the empty name, has
    no catalog entry. *)
Theorem extract_retailer_id_in_catalog (store_name : pystr) :
  In (extract_retailer_id store_name) (List.map r_retailer_id retailers)
  <-> store_name <> [].
Proof.
  split.
  - intros H ->. cbn in H.
    repeat (destruct H as [H|H]; [discriminate|]). exact H.
  - intros Hne. destruct store_name as [|c s]; [congruence|].
    unfold extract_retailer_id.
    repeat match goal with
           | |- context [if ?b then _ else _] => destruct b
           end; cbn; tauto_closed.
Qed.

Lemma clean_special_chars_twice (text : option pystr) :
  clean_special_chars (Some (clean_special_chars text))
  = clean_special_chars text.
Proof.
  assert (H1 : ~ In LIG_OE_CAPITAL (clean_special_chars text))
    by (intros H; apply clean_special_chars_no_ligature in H; tauto_closed).
  assert (H2 : ~ In LIG_OE_SMALL (clean_special_chars text))
    by (intros H; apply clean_special_chars_no_ligature in H; tauto_closed).
  destruct (clean_special_chars text) as [|c s]; [reflexivity|].
  unfold clean_special_chars.
  now rewrite (replace_absent _ _ _ H1), (replace_absent _ _ _ H2).
Qed.

Lemma clean_field_ligature_free (v v' : option jval) :
  clean_field v = Ok v' -> ligature_free v'.
Proof.
  unfold clean_field, ligature_free.
  destruct v as [x|]; [|now intros [= <-]].
  destruct (truthy x) eqn:Ht.
  - destruct x as [| | | |s| |]; try discriminate. intros Heq.
    assert (v' = Some (JStr (clean_special_chars (Some s)))) as ->
      by congruence.
    split; intros H; apply clean_special_chars_no_ligature in H;
      tauto_closed.
  - intros [= <-]. destruct x as [| | | |s| |]; try exact I.
    cbn in Ht. apply negb_false_iff in Ht.
    unfold pystr_eqb in Ht. apply bool_decide_eq_true in Ht. subst s.
    split; intros [].
Qed.

Lemma clean_field_twice (v v' : option jval) :
  clean_field v = Ok v' -> clean_field v' = Ok v'.
Proof.
  unfold clean_field.
  destruct v as [x|]; [|now intros [= <-]].
  destruct (truthy x) eqn:Ht.
  - destruct x as [| | | |s| |]; try discriminate. intros Heq.
    assert (v' = Some (JStr (clean_special_chars (Some s)))) as ->
      by congruence.
    destruct (truthy (JStr (clean_special_chars (Some s)))); [|reflexivity].
    now rewrite clean_special_chars_twice.
  - intros [= <-]. now rewrite Ht.
Qed.

Lemma for_each_result_Forall2 {A B} (f : A -> result B) (xs : list A)
  (ys : list B) :
  for_each_result f xs = Ok ys <-> Forall2 (fun x y => f x = Ok y) xs ys.
Proof.
  revert ys. induction xs as [|x xs IH]; intros ys; cbn.
  - split; [intros [= <-]; constructor | now inversion 1].
  - split.
    + destruct (f x) as [y|e] eqn:Hx; [|discriminate].
      destruct (for_each_result f xs) as [zs|e]; [|discriminate].
      intros [= <-]. constructor; [exact Hx | now apply IH].
    + inversion 1 as [|? y ? zs Hx Hzs]; subst.
      rewrite Hx. apply IH in Hzs. now rewrite Hzs.
Qed.

Lemma Forall2_In_left {A B} (R : A -> B -> Prop) (xs : list A) (ys : list B)
  (x : A) :
  Forall2 R xs ys -> In x xs -> exists y, In y ys /\ R x y.
Proof.
  induction 1 as [|a b xs ys Hab _ IH]; intros Hin; [destruct Hin|].
  destruct Hin as [->|Hin]; [exists b; split; [now left | exact Hab]|].
  destruct (IH Hin) as (y & Hy & Hr). exists y. split; [now right | exact Hr].
Qed.

Lemma transform_products_ok (d : disk) :
  fst (transform_products d) = Ok tt ->
  exists ps ps',
    in_products d = Holds ps
    /\ for_each_result
         (transform_product (stored_keywords (in_product_keywords d))) ps
       = Ok ps'
    /\ snd (transform_products d) = with_out_products ps' d.
Proof.
  unfold transform_products, st_bind, st_lift, st_ret, st_raise,
    dump_out_products.
  destruct (in_products d) as [| | |ps]; cbn; try discriminate;
    try (destruct (in_product_keywords d); cbn; discriminate).
  destruct (in_product_keywords d) as [| | |kw]; cbn; try discriminate.
  all: match goal with
       | |- context [for_each_result ?f ?l] =>
           destruct (for_each_result f l) as [ps'|e] eqn:Hfor; [|discriminate]
       end.
  all: destruct (out_products_writable d); [|discriminate].
  all: destruct (forallb encodable_product ps'); [|discriminate].
  all: intros _; eexists _, ps'; repeat split; exact Hfor.
Qed.

Lemma transform_product_fields (kw : gmap pystr jval) (p p' : product_row) :
  transform_product kw p = Ok p' ->
  pr_product_id p' = pr_product_id p
  /\ pr_image_url p' = pr_image_url p
  /\ pr_product_type p' = pr_product_type p
  /\ pr_general_unit p' = pr_general_unit p
  /\ pr_other p' = pr_other p
  /\ pr_keywords p'
     = Some match pr_product_id p with
            | Some (c :: i) => default (JList []) (kw !! (c :: i))
            | _ => JList []
            end
  /\ clean_field (pr_name p) = Ok (pr_name p')
  /\ clean_field (pr_category p) = Ok (pr_category p')
  /\ ligature_free (pr_name p')
  /\ ligature_free (pr_category p').
Proof.
  unfold transform_product, bind_result.
  destruct (clean_field (pr_name p)) as [n|e] eqn:Hn; [|discriminate].
  destruct (clean_field (pr_category p)) as [c|e] eqn:Hc; [|discriminate].
  intros [= <-]. cbn.
  repeat split; try (eapply clean_field_ligature_free; eassumption).
Qed.

(** X19.  When phase 1 completes, the output has one product per
    product of the export, in order.  Each keeps its identifier, image,
    type, unit and other keys; its keywords are those the keywords file
    has for its identifier, and the empty list when the identifier is
    absent or empty, the file has none for it, or there is no keywords
    file; its name and category, when strings, are the cleaned ones and
    hold no ligature. *)
Theorem transform_products_output (d : disk) :
  fst (transform_products d) = Ok tt ->
  exists ps ps',
    in_products d = Holds ps
    /\ out_products (snd (transform_products d)) = Holds ps'
    /\ Forall2
         (fun p p' =>
            pr_product_id p' = pr_product_id p
            /\ pr_image_url p' = pr_image_url p
            /\ pr_product_type p' = pr_product_type p
            /\ pr_general_unit p' = pr_general_unit p
            /\ pr_other p' = pr_other p
            /\ pr_keywords p'
               = Some match pr_product_id p with
                      | Some (c :: i) =>
                          default (JList [])
                            (stored_keywords (in_product_keywords d) !! (c :: i))
                      | _ => JList []
                      end
            /\ clean_field (pr_name p) = Ok (pr_name p')
            /\ clean_field (pr_category p) = Ok (pr_category p')
            /\ ligature_free (pr_name p')
            /\ ligature_free (pr_category p'))
         ps ps'.
Proof.
  intros H. destruct (transform_products_ok d H) as (ps & ps' & Hin & Hfor & Hd).
  exists ps, ps'. rewrite Hd. split; [exact Hin|]. split; [reflexivity|].
  apply for_each_result_Forall2 in Hfor.
  eapply Forall2_impl; [exact Hfor|].
  intros p p' Hp. now apply transform_product_fields.
Qed.

Lemma transform_products_fails (d : disk) :
  fst (transform_products d) = Ok tt
  \/ snd (transform_products d) = d
  \/ snd (transform_products d) = with_truncated_out_products d.
Proof.
  unfold transform_products, st_bind, st_lift, st_ret, st_raise,
    dump_out_products.
  destruct (in_products d) as [| | |ps]; cbn; auto;
    try (destruct (in_product_keywords d); cbn; auto; fail).
  destruct (in_product_keywords d) as [| | |kw]; cbn; auto.
  all: match goal with
       | |- context [for_each_result ?f ?l] =>
           destruct (for_each_result f l) as [ps'|e]; auto
       end.
  all: destruct (out_products_writable d); auto.
  all: destruct (forallb encodable_product ps'); auto.
Qed.

Lemma transform_products_truncates (d : disk) (ps ps' : list product_row) :
  in_products d = Holds ps ->
  match in_product_keywords d with
  | Unreadable | Malformed => False
  | _ => True
  end ->
  for_each_result
    (transform_product (stored_keywords (in_product_keywords d))) ps
  = Ok ps' ->
  out_products_writable d = true ->
  forallb encodable_product ps' = false ->
  transform_products d
  = (Raise UnicodeEncodeError, with_truncated_out_products d).
Proof.
  intros Hin Hkw Hfor Hw Henc.
  unfold transform_products, st_bind, st_lift, st_ret, dump_out_products.
  rewrite Hin. cbn [exists_ negb json_load].
  destruct (in_product_keywords d) as [| | |kw]; try contradiction;
    cbn [exists_ json_load stored_keywords] in *;
    now rewrite Hfor, Hw, Henc.
Qed.

(** X20.  Phase 1 raises FileNotFoundError when the product export is
    absent.  A keywords file that exists must load: when it cannot be
    read or parsed the phase does not complete.  So it is with a product
    whose name or category is a true value that is not a string.  A
    phase 1 that does not complete has changed no file, or has left the
    product output cut short; the second happens when the output can be
    opened and a cleaned product holds a lone surrogate, and the phase
    then raises UnicodeEncodeError. *)
Theorem transform_products_failure (d : disk) :
  match in_products d with
  | Absent => transform_products d = (Raise FileNotFoundError, d)
  | Holds ps =>
      Exists (fun p => clean_field (pr_name p) = Raise AttributeError
                       \/ clean_field (pr_category p) = Raise AttributeError)
             ps ->
      fst (transform_products d) <> Ok tt
  | _ => True
  end
  /\ match in_product_keywords d with
     | Unreadable | Malformed => fst (transform_products d) <> Ok tt
     | _ => True
     end
  /\ (fst (transform_products d) = Ok tt
      \/ snd (transform_products d) = d
      \/ snd (transform_products d) = with_truncated_out_products d)
  /\ (forall ps ps',
        in_products d = Holds ps ->
        match in_product_keywords d with
        | Unreadable | Malformed => False
        | _ => True
        end ->
        for_each_result
          (transform_product (stored_keywords (in_product_keywords d))) ps
        = Ok ps' ->
        out_products_writable d = true ->
        forallb encodable_product ps' = false ->
        transform_products d
        = (Raise UnicodeEncodeError, with_truncated_out_products d)).
Proof.
  split; [|split; [|split;
    [apply transform_products_fails | apply transform_products_truncates]]].
  - destruct (in_products d) as [| | |ps] eqn:Hin; try exact I.
    + unfold transform_products. now rewrite Hin.
    + intros Hex Hok.
      destruct (transform_products_ok d Hok) as (ps0 & ps' & Hin' & Hfor & _).
      rewrite Hin in Hin'. injection Hin' as <-.
      apply for_each_result_Forall2 in Hfor.
      apply List.Exists_exists in Hex as (p & Hp & Hbad).
      destruct (Forall2_In_left _ _ _ _ Hfor Hp) as (p' & _ & Hp').
      apply transform_product_fields in Hp' as (_ & _ & _ & _ & _ & _ & Hn & Hc & _).
      destruct Hbad as [Hbad|Hbad]; congruence.
  - destruct (in_product_keywords d) eqn:Hkw; try exact I;
      intros Hok; destruct (transform_products_ok d Hok) as (ps & ps' & Hin & _);
      revert Hok; unfold transform_products, st_bind, st_lift;
      rewrite Hin, Hkw; cbn; discriminate.
Qed.

Lemma transform_discounts_ok (d : disk) :
  fst (transform_discounts d) = Ok tt ->
  (out_discounts d = Absent /\ snd (transform_discounts d) = d)
  \/ exists ds ds',
       out_discounts d = Holds ds
       /\ for_each_result transform_discount ds = Ok ds'
       /\ out_discounts_writable d = true
       /\ forallb encodable_discount ds' = true
       /\ snd (transform_discounts d) = with_out_discounts ds' d.
Proof.
  unfold transform_discounts, st_bind, st_lift, st_ret, dump_out_discounts.
  destruct (out_discounts d) as [| | |ds]; cbn; try discriminate;
    [now left|].
  destruct (for_each_result transform_discount ds) as [ds'|e] eqn:Hfor;
    [|discriminate].
  destruct (out_discounts_writable d); [|discriminate].
  destruct (forallb encodable_discount ds') eqn:Henc; [|discriminate].
  intros _. right. exists ds, ds'. repeat split; auto.
Qed.

Lemma transform_discounts_truncates (d : disk) (ds ds' : list discount) :
  out_discounts d = Holds ds ->
  for_each_result transform_discount ds = Ok ds' ->
  out_discounts_writable d = true ->
  forallb encodable_discount ds' = false ->
  transform_discounts d
  = (Raise UnicodeEncodeError, with_truncated_out_discounts d).
Proof.
  intros Hin Hfor Hw Henc.
  unfold transform_discounts, st_bind, st_lift, dump_out_discounts.
  rewrite Hin. cbn [exists_ negb json_load]. now rewrite Hfor, Hw, Henc.
Qed.

Lemma transform_discount_twice (x x' : discount) :
  transform_discount x = Ok x' -> transform_discount x' = Ok x'.
Proof.
  unfold transform_discount, bind_result.
  destruct (clean_field (d_product_name x)) as [n|e] eqn:Hn; [|discriminate].
  intros [= <-]. cbn. now rewrite (clean_field_twice _ _ Hn).
Qed.

Lemma for_each_result_twice {A} (f : A -> result A) (xs ys : list A) :
  (forall x y, f x = Ok y -> f y = Ok y) ->
  for_each_result f xs = Ok ys -> for_each_result f ys = Ok ys.
Proof.
  intros Hf H. apply for_each_result_Forall2 in H.
  apply for_each_result_Forall2.
  induction H as [|x y xs ys Hxy _ IH]; constructor; eauto.
Qed.

(** X21.  When phase 4 completes on a discounts file, the file holds
    one discount per discount it held, in order, each with its other
    keys unchanged and with its product name cleaned, free of ligatures
    when it is a string. *)
Theorem transform_discounts_output (d : disk) (ds : list discount) :
  out_discounts d = Holds ds ->
  fst (transform_discounts d) = Ok tt ->
  exists ds',
    out_discounts (snd (transform_discounts d)) = Holds ds'
    /\ Forall2 (fun x x' =>
                  d_other x' = d_other x
                  /\ clean_field (d_product_name x) = Ok (d_product_name x')
                  /\ ligature_free (d_product_name x'))
               ds ds'.
Proof.
  intros Hin Hok.
  destruct (transform_discounts_ok d Hok)
    as [[Habs _]|(ds0 & ds' & Hds & Hfor & _ & _ & Hd)]; [congruence|].
  rewrite Hin in Hds. injection Hds as <-.
  exists ds'. rewrite Hd. split; [reflexivity|].
  apply for_each_result_Forall2 in Hfor.
  eapply Forall2_impl; [exact Hfor|].
  intros x x'. unfold transform_discount, bind_result.
  destruct (clean_field (d_product_name x)) as [n|e] eqn:Hn; [|discriminate].
  intros [= <-]. cbn. repeat split.
  eapply clean_field_ligature_free, Hn.
Qed.

(** X22.  Phase 4 is idempotent: after a run that completes, a second
    run completes and leaves every file as the first run left it. *)
Theorem transform_discounts_idempotent (d : disk) :
  fst (transform_discounts d) = Ok tt ->
  transform_discounts (snd (transform_discounts d))
  = (Ok tt, snd (transform_discounts d)).
Proof.
  intros Hok.
  destruct (transform_discounts_ok d Hok)
    as [[Habs Hd]|(ds & ds' & Hds & Hfor & Hw & Henc & Hd)]; rewrite Hd.
  - unfold transform_discounts. now rewrite Habs.
  - unfold transform_discounts, st_bind, st_lift, dump_out_discounts.
    cbn [with_out_discounts out_discounts exists_ negb json_load
         out_discounts_writable].
    rewrite (for_each_result_twice _ _ _ transform_discount_twice Hfor), Hw,
      Henc.
    reflexivity.
Qed.

(** X23.  Without a discounts file phase 4 returns and changes nothing;
    with a file that cannot be read or parsed it raises.  A phase 4
    that does not complete has changed no file, or has left the
    discounts file, which it rewrites in place, cut short; the second
    happens when the file can be opened for writing and a cleaned
    discount holds a lone surrogate, and the phase then raises
    UnicodeEncodeError. *)
Theorem transform_discounts_absent (d : disk) :
  match out_discounts d with
  | Absent => transform_discounts d = (Ok tt, d)
  | Unreadable => transform_discounts d = (Raise OSError, d)
  | Malformed => transform_discounts d = (Raise JSONDecodeError, d)
  | Holds _ => True
  end
  /\ (fst (transform_discounts d) = Ok tt
      \/ snd (transform_discounts d) = d
      \/ snd (transform_discounts d) = with_truncated_out_discounts d)
  /\ (forall ds ds',
        out_discounts d = Holds ds ->
        for_each_result transform_discount ds = Ok ds' ->
        out_discounts_writable d = true ->
        forallb encodable_discount ds' = false ->
        transform_discounts d
        = (Raise UnicodeEncodeError, with_truncated_out_discounts d)).
Proof.
  split; [|split; [|apply transform_discounts_truncates]].
  - unfold transform_discounts, st_bind, st_lift, st_ret.
    destruct (out_discounts d) as [| | |ds]; cbn; auto.
  - unfold transform_discounts, st_bind, st_lift, st_ret, dump_out_discounts.
    destruct (out_discounts d) as [| | |ds]; cbn; auto.
    destruct (for_each_result transform_discount ds) as [ds'|e]; auto.
    destruct (out_discounts_writable d); auto.
    destruct (forallb encodable_discount ds'); auto.
Qed.

Lemma run_transform_retailer_prices_ok (current_time : pystr) (d : disk) :
  fst (run_transform_retailer_prices current_time d) = Ok tt ->
  exists inventory rows products,
    in_store_prices d = Holds inventory
    /\ out_products d = Holds rows
    /\ for_each_result as_product rows = Ok products
    /\ snd (run_transform_retailer_prices current_time d)
       = with_out_retailer_prices
           (transform_retailer_prices inventory products current_time) d.
Proof.
  unfold run_transform_retailer_prices, st_bind, st_lift, st_raise,
    dump_out_retailer_prices.
  destruct (in_store_prices d) as [| | |inventory]; cbn; try discriminate.
  destruct (out_products d) as [| | |rows]; cbn; try discriminate.
  destruct (for_each_result as_product rows) as [products|e] eqn:Hfor;
    [|discriminate].
  destruct (out_retailer_prices_writable d); [|discriminate].
  intros _. exists inventory, rows, products. repeat split. exact Hfor.
Qed.

Lemma run_transform_retailer_prices_fails (current_time : pystr) (d : disk) :
  fst (run_transform_retailer_prices current_time d) = Ok tt
  \/ snd (run_transform_retailer_prices current_time d) = d.
Proof.
  unfold run_transform_retailer_prices, st_bind, st_lift, st_raise,
    dump_out_retailer_prices.
  destruct (in_store_prices d) as [| | |inventory]; cbn; auto.
  destruct (out_products d) as [| | |rows]; cbn; auto.
  destruct (for_each_result as_product rows) as [products|e]; auto.
  destruct (out_retailer_prices_writable d); auto.
Qed.




(** ** The whole run *)

Lemma transform_stores_world_shape (w : world) :
  snd (transform_stores w) = w
  \/ snd (transform_stores w)
     = with_cache (stored_mapping (geocode_cache_file w)) w
  \/ exists stores',
       snd (transform_stores w)
       = with_out_stores stores'
           (with_cache (stored_mapping (geocode_cache_file w)) w).
Proof.
  destruct (in_stores w) as [| | |stores] eqn:Hin;
    try (left; unfold transform_stores; rewrite Hin; reflexivity).
  right. rewrite (transform_stores_run w stores Hin). cbv zeta.
  destruct (fst (for_each transform_store stores _)) as [stores'|e];
    [|now left].
  unfold dump_out_stores. cbn [with_cache out_stores_writable].
  destruct (out_stores_writable w); [right; now exists stores' | now left].
Qed.

Lemma main_world (current_time : pystr) (s : system) :
  sys_world (snd (main current_time s)) = sys_world s
  \/ sys_world (snd (main current_time s)) = snd (transform_stores (sys_world s)).
Proof.
  unfold main, st_bind, on_disk, on_world.
  destruct (create_retailers (sys_disk s)) as [[[]|e] d1];
    cbn [fst snd sys_world sys_disk]; [|now left].
  destruct (transform_products d1) as [[[]|e] d2];
    cbn [fst snd sys_world sys_disk]; [|now left].
  destruct (transform_stores (sys_world s)) as [[[]|e] w1];
    cbn [fst snd sys_world sys_disk]; [|now right].
  destruct (run_transform_retailer_prices current_time d2) as [[[]|e] d3];
    cbn [fst snd sys_world sys_disk]; now right.
Qed.

Lemma main_steps (current_time : pystr) (s : system) :
  fst (main current_time s) = Ok tt ->
  let d1 := snd (create_retailers (sys_disk s)) in
  let d2 := snd (transform_products d1) in
  let d3 := snd (run_transform_retailer_prices current_time d2) in
  fst (create_retailers (sys_disk s)) = Ok tt
  /\ fst (transform_products d1) = Ok tt
  /\ fst (transform_stores (sys_world s)) = Ok tt
  /\ fst (run_transform_retailer_prices current_time d2) = Ok tt
  /\ fst (transform_discounts d3) = Ok tt
  /\ snd (main current_time s)
     = {| sys_world := snd (transform_stores (sys_world s));
          sys_disk := snd (transform_discounts d3) |}.
Proof.
  unfold main, st_bind, on_disk, on_world. cbv zeta.
  destruct (create_retailers (sys_disk s)) as [[[]|e] d1];
    cbn [fst snd sys_world sys_disk]; [|discriminate].
  destruct (transform_products d1) as [[[]|e] d2];
    cbn [fst snd sys_world sys_disk]; [|discriminate].
  destruct (transform_stores (sys_world s)) as [[[]|e] w1];
    cbn [fst snd sys_world sys_disk]; [|discriminate].
  destruct (run_transform_retailer_prices current_time d2) as [[[]|e] d3];
    cbn [fst snd sys_world sys_disk]; [|discriminate].
  destruct (transform_discounts d3) as [[[]|e] d4];
    cbn [fst snd sys_world sys_disk]; [|discriminate].
  intros _. repeat split.
Qed.

(** X25.  When the whole run completes, the catalog is written, the
    product output is phase 1 applied to the product export, the
    retailer prices are the aggregation of the store prices over that
    product output (not over the export), stamped with the clock
    reading, and the store phase has completed on the world. *)
Theorem main_completes (current_time : pystr) (s : system) :
  fst (main current_time s) = Ok tt ->
  exists ps ps' inventory products,
    in_products (sys_disk s) = Holds ps
    /\ in_store_prices (sys_disk s) = Holds inventory
    /\ for_each_result
         (transform_product
            (stored_keywords (in_product_keywords (sys_disk s)))) ps
       = Ok ps'
    /\ for_each_result as_product ps' = Ok products
    /\ out_retailers (sys_disk (snd (main current_time s))) = Holds retailers
    /\ out_products (sys_disk (snd (main current_time s))) = Holds ps'
    /\ out_retailer_prices (sys_disk (snd (main current_time s)))
       = Holds (transform_retailer_prices inventory products current_time)
    /\ sys_world (snd (main current_time s))
       = snd (transform_stores (sys_world s))
    /\ fst (transform_stores (sys_world s)) = Ok tt.
Proof.
  intros Hok.
  destruct (main_steps current_time s Hok) as (H0 & H1 & H2 & H3 & H4 & Hs).
  cbv zeta in *. rewrite Hs. cbn [sys_world sys_disk].
  assert (Hd1 : snd (create_retailers (sys_disk s))
                = with_out_retailers retailers (sys_disk s)).
  { revert H0. unfold create_retailers, dump_out_retailers.
    destruct (out_retailers_writable (sys_disk s)); [reflexivity|discriminate]. }
  rewrite Hd1 in *.
  destruct (transform_products_ok _ H1) as (ps & ps' & Hps & Hfor & Hd2).
  rewrite Hd2 in *.
  destruct (run_transform_retailer_prices_ok _ _ H3)
    as (inventory & rows & products & Hinv & Hrows & Hprod & Hd3).
  rewrite Hd3 in *.
  cbn [with_out_products with_out_retailers out_products in_store_prices
       in_products in_product_keywords] in Hps, Hfor, Hinv, Hrows.
  injection Hrows as <-.
  exists ps, ps', inventory, products.
  repeat (split; [assumption|]).
  destruct (transform_discounts_ok _ H4)
    as [[_ Hd4]|(ds & ds' & _ & _ & _ & _ & Hd4)]; rewrite Hd4;
    repeat split; assumption.
Qed.

(** X26.  Whatever happens in the run, it issues no request to the
    geocoding service and leaves the geocode cache file and the store
    export as they were. *)
Theorem main_offline (current_time : pystr) (s : system) :
  requests (sys_world (snd (main current_time s))) = requests (sys_world s)
  /\ geocode_cache_file (sys_world (snd (main current_time s)))
     = geocode_cache_file (sys_world s)
  /\ in_stores (sys_world (snd (main current_time s)))
     = in_stores (sys_world s).
Proof.
  destruct (main_world current_time s) as [-> | ->]; [repeat split|].
  destruct (transform_stores_world_shape (sys_world s))
    as [-> | [-> | [stores' ->]]]; repeat split.
Qed.

(** X27.  Without the product export the run stops in phase 1 with
    FileNotFoundError: the catalog has been written, and nothing else
    has changed; the store phase has not run. *)
Theorem main_without_products (current_time : pystr) (s : system) :
  out_retailers_writable (sys_disk s) = true ->
  in_products (sys_disk s) = Absent ->
  main current_time s
  = (Raise FileNotFoundError,
     {| sys_world := sys_world s;
        sys_disk := with_out_retailers retailers (sys_disk s) |}).
Proof.
  intros Hw Hin.
  unfold main, st_bind, on_disk, on_world, create_retailers,
    dump_out_retailers, transform_products.
  rewrite Hw. cbn [fst snd sys_world sys_disk with_out_retailers in_products].
  now rewrite Hin.
Qed.

End Script.

(** * Instances: examples, witnesses and counterexamples *)

(** ** Retailer classifier *)

Example classify_upper_case :
  extract_retailer_id lower_latin1 (cps "COOP Supermarch" ++ [0xE9]) = cps "coop".
Proof. reflexivity. Qed.

Example classify_lower_case :
  extract_retailer_id lower_latin1 (cps "coop supermarch" ++ [0xE9]) = cps "coop".
Proof. reflexivity. Qed.

Example classify_priority :
  extract_retailer_id lower_latin1 (cps "Aldi next to MIGROS") = cps "migros".
Proof. reflexivity. Qed.

Example classify_other :
  extract_retailer_id lower_latin1 (cps "Volg Dorfladen") = cps "other".
Proof. reflexivity. Qed.

Example classify_blank :
  extract_retailer_id lower_latin1 (cps "   ") = cps "other".
Proof. reflexivity. Qed.

(** C4, counterexample.  The empty name is classified "unknown", not
    "other". *)
Lemma extract_retailer_id_empty_is_unknown :
  extract_retailer_id lower_latin1 [] = cps "unknown"
  /\ extract_retailer_id lower_latin1 [] <> cps "other".
Proof. split; [reflexivity | discriminate]. Qed.

(** ** Text normalizer *)



Example normalize_text_demo :
  normalize_text nfd_latin1 (Some ([0x152] ++ cps "uf " ++ [0xE9; 0xC7; 0x153]))
  = cps "Oeuf eCoe".
Proof. reflexivity. Qed.



(** ** Address normalization *)

Example split_demo :
  split (cps "  Rue  du Lac 3, " ++ [0x09; 0xA0] ++ cps "Lausanne ")
  = [cps "Rue"; cps "du"; cps "Lac"; cps "3,"; cps "Lausanne"].
Proof. reflexivity. Qed.

Example strip_demo : strip (cps "  a b " ++ [0x0A]) = cps "a b".
Proof. reflexivity. Qed.

Example normalize_address_demo :
  normalize_address lac_store = lac_address
  /\ normalize_address (with_address lac_address gare_store) = lac_address.
Proof. split; reflexivity. Qed.

(** ** Coordinate lookup *)

(** C8, counterexample.  Without a credential, a store whose address is
    cached gets the cached coordinates, not the zero coordinates. *)
Lemma lookup_without_credential_cached :
  fst (get_coordinates_for_store service_denied lac_store None cached_world)
  = Ok {| latitude := JFloat 93 (-1); longitude := JFloat 53 (-3) |}
  /\ fst (get_coordinates_for_store service_denied lac_store None cached_world)
     <> Ok zero_coords.
Proof. split; [reflexivity | discriminate]. Qed.

(** C8, witness: a store that is not cached, no credential. *)
Lemma lookup_without_credential_witness :
  requests (snd (get_coordinates_for_store service_found gare_store None
                   cached_world)) = []
  /\ cache (snd (get_coordinates_for_store service_found gare_store None
                   cached_world)) = {[ lac_address := lac_entry ]}
  /\ fst (get_coordinates_for_store service_found gare_store None cached_world)
     = Ok zero_coords.
Proof.
  destruct (lookup_without_credential service_found gare_store None
              cached_world (or_introl eq_refl)) as (Hr & Hc & Hz).
  split; [exact Hr|]. split; [exact Hc|]. apply Hz. reflexivity.
Defined.

(** C6, witness: the cached entry outlives lookups with a credential. *)
Lemma cache_append_only_witness :
  cache (run_lookups service_found
           ([] ++ [(gare_store, Some (cps "key")); (lac_store, Some (cps "key"))])
           cached_world) !! lac_address = Some lac_entry.
Proof.
  apply (cache_append_only service_found []
           [(gare_store, Some (cps "key")); (lac_store, Some (cps "key"))]
           cached_world lac_address lac_entry).
  reflexivity.
Defined.

Example lookup_with_credential_found :
  get_coordinates_for_store service_found gare_store (Some (cps "key")) fresh_world
  = (Ok {| latitude := JFloat 93 (-1); longitude := JFloat 53 (-3) |},
     with_cache
       {[ cps "Place de la Gare 1" :=
            JDict [ (cps "latitude", JFloat 93 (-1));
                    (cps "longitude", JFloat 53 (-3));
                    (cps "status", JStr (cps "OK"));
                    (cps "accuracy", JStr (cps "ROOFTOP")) ] ]}
       (with_request {| req_address := cps "Place de la Gare 1";
                        req_key := cps "key" |} fresh_world)).
Proof. reflexivity. Qed.

(** C5, witness: a refused request is cached and not repeated, also
    once the service answers. *)
Lemma failed_lookup_is_cached_witness :
  let w1 := snd (get_coordinates_for_store service_denies_first gare_store
                   (Some (cps "key")) fresh_world) in
  let w2 := run_lookups service_denies_first [(lac_store, Some (cps "key"))] w1 in
  fst (get_coordinates_for_store service_denies_first gare_store
         (Some (cps "key")) fresh_world) = Ok zero_coords
  /\ cache w1
     = <[ cps "Place de la Gare 1" := sentinel (JStr (cps "REQUEST_DENIED")) ]> ∅
  /\ get_coordinates_for_store service_denies_first gare_store
       (Some (cps "key")) w2 = (Ok zero_coords, w2).
Proof.
  destruct (failed_lookup_is_cached service_denies_first gare_store 107
              (cps "ey") fresh_world
              [ (cps "status", JStr (cps "REQUEST_DENIED"));
                (cps "results", JList []) ])
    as (Hz & _ & Hc & Hagain).
  - discriminate.
  - reflexivity.
  - reflexivity.
  - left. reflexivity.
  - cbv zeta. split; [exact Hz|]. split; [exact Hc|].
    apply (Hagain [(lac_store, Some (cps "key"))] gare_store (Some (cps "key"))).
    reflexivity.
Defined.

Example lookups_after_refusal :
  let w1 := snd (get_coordinates_for_store service_denies_first gare_store
                   (Some (cps "key")) fresh_world) in
  let w2 := run_lookups service_denies_first [(lac_store, Some (cps "key"))] w1 in
  List.map req_address (requests w2) = [cps "Place de la Gare 1"; lac_address]
  /\ dom (cache w2) = {[ cps "Place de la Gare 1"; lac_address ]}.
Proof. cbv zeta. split; [reflexivity | now vm_compute]. Qed.

(** ** Store phase *)

Example save_then_load :
  let c : gmap pystr jval := {[ lac_address := lac_entry ]} in
  fst (load_geocode_cache (snd (save_geocode_cache c fresh_world))) = Ok c.
Proof. now vm_compute. Qed.

Example save_with_lone_surrogate :
  let c : gmap pystr jval := {[ [0xD800] := JNull ]} in
  let w := snd (save_geocode_cache c fresh_world) in
  geocode_cache_file w = Malformed
  /\ fst (load_geocode_cache w) = Ok ∅.
Proof. now vm_compute. Qed.

(** C2, counterexample.  A run that starts without a cache file ends
    without one: the loaded (empty) mapping is not written, as
    [save_geocode_cache] would have done. *)
Lemma transform_stores_leaves_cache_unsaved :
  let run := transform_stores lower_latin1 service_found fresh_world in
  fst run = Ok tt
  /\ geocode_cache_file (snd run) = Absent
  /\ geocode_cache_file (snd run) <> Holds (cache (snd run))
  /\ geocode_cache_file (snd (save_geocode_cache (cache (snd run)) (snd run)))
     = Holds (cache (snd run)).
Proof. cbv zeta. repeat split. discriminate. Qed.

(** C3, witness: one store is cached, the other is not; the service
    would locate it, and is not asked. *)
Lemma transform_stores_offline_witness :
  let run := transform_stores lower_latin1 service_found cached_world in
  requests (snd run) = []
  /\ cache (snd run) = {[ lac_address := lac_entry ]}
  /\ fst run = Ok tt
  /\ exists stores',
       out_stores (snd run) = Holds stores'
       /\ Forall2 (fun st st' =>
                     ({[ lac_address := lac_entry ]} : gmap pystr jval)
                       !! normalize_address st = None ->
                     st_coordinates st' = Some zero_coords)
                  [lac_store; gare_store] stores'.
Proof.
  destruct (transform_stores_offline lower_latin1 service_found cached_world
              [lac_store; gare_store] eq_refl) as (Hr & Hc & Hout & Hok).
  assert (Hrun : fst (transform_stores lower_latin1 service_found cached_world)
                 = Ok tt).
  { apply Hok; [reflexivity|].
    repeat constructor; intros v Hv; vm_compute in Hv;
      [injection Hv as <-; eexists; reflexivity | discriminate]. }
  cbv zeta. split; [exact Hr|]. split; [exact Hc|]. split; [exact Hrun|].
  exact (Hout Hrun).
Defined.

Example transform_stores_demo :
  option_map (List.map (fun st => (st_store_id st, st_retailer_id st,
                                   st_coordinates st)))
    (match out_stores (snd (transform_stores lower_latin1 service_found
                              cached_world)) with
     | Holds stores' => Some stores'
     | _ => None
     end)
  = Some [ (Some (cps "coop_12"), Some (cps "coop"),
            Some {| latitude := JFloat 93 (-1); longitude := JFloat 53 (-3) |});
           (Some (cps "unknown_migros gare"), Some (cps "migros"),
            Some zero_coords) ].
Proof. reflexivity. Qed.

(** ** Price aggregation *)

Example end_to_end_scenario :
  List.map (fun o => (doc_id o, price o, product_name o))
    (transform_retailer_prices lower_latin1 [coop_12_p1; coop_77_p1] [milk]
       (cps "2025-01-01T00:00:00Z"))
  = [ (cps "coop_p1", JFloat 5 (-1), JStr (cps "Milk")) ].
Proof. reflexivity. Qed.

(** C1, witness: the second record of the scenario has a key seen
    before and does not change the output. *)
Lemma retailer_prices_first_seen_witness :
  retailer_prices lower_latin1 ([coop_12_p1] ++ [])
    {[ cps "p1" := milk ]} (cps "2025-01-01T00:00:00Z")
  = retailer_prices lower_latin1 [coop_12_p1; coop_77_p1]
      {[ cps "p1" := milk ]} (cps "2025-01-01T00:00:00Z").
Proof.
  apply (proj2 (proj2 (proj2
           (retailer_prices_first_seen lower_latin1 [coop_12_p1; coop_77_p1]
              {[ cps "p1" := milk ]} (cps "2025-01-01T00:00:00Z"))))
           [coop_12_p1] coop_77_p1 []).
  - reflexivity.
  - left. reflexivity.
Defined.

(** ** Further instances *)

Example main_demo :
  fst (main lower_latin1 service_found (cps "2025-01-01T00:00:00Z") sample_system)
  = Ok tt
  /\ out_products
       (sys_disk (snd (main lower_latin1 service_found
                         (cps "2025-01-01T00:00:00Z") sample_system)))
     = out_products disk_after_phase_1.
Proof. split; reflexivity. Qed.

(** X5, witness: a located address is answered from the cache, also
    without credential. *)
Lemma lookup_repeatable_witness :
  let w1 := snd (get_coordinates_for_store service_found gare_store
                   (Some (cps "key")) fresh_world) in
  let w2 := run_lookups service_found [(lac_store, Some (cps "key"))] w1 in
  get_coordinates_for_store service_found gare_store None w2
  = (Ok {| latitude := JFloat 93 (-1); longitude := JFloat 53 (-3) |}, w2).
Proof.
  exact (lookup_repeatable service_found gare_store 107 (cps "ey") fresh_world
           {| latitude := JFloat 93 (-1); longitude := JFloat 53 (-3) |}
           eq_refl [(lac_store, Some (cps "key"))] gare_store None eq_refl).
Defined.

(** X7, witness: an answer that is not an object makes the lookup
    raise; the cache stays empty. *)
Lemma lookup_cache_change_witness :
  fst (get_coordinates_for_store service_garbled gare_store (Some (cps "key"))
         fresh_world) = Raise AttributeError
  /\ cache (snd (get_coordinates_for_store service_garbled gare_store
                   (Some (cps "key")) fresh_world)) = ∅.
Proof.
  split; [reflexivity|].
  exact (proj2 (proj2 (proj2 (proj2
           (lookup_cache_change service_garbled gare_store (Some (cps "key"))
              fresh_world)))) AttributeError eq_refl).
Defined.

(** X8, witness. *)
Lemma lookup_transport_failure_witness :
  get_coordinates_for_store service_down gare_store (Some (cps "key")) fresh_world
  = (Ok zero_coords,
     with_cache
       (<[cps "Place de la Gare 1" := sentinel (JStr (cps "error"))]> ∅)
       (with_request {| req_address := cps "Place de la Gare 1";
                        req_key := cps "key" |} fresh_world)).
Proof.
  apply (lookup_transport_failure service_down gare_store 107 (cps "ey")
           fresh_world).
  - discriminate.
  - reflexivity.
  - reflexivity.
Defined.

(** X9, witness. *)
Lemma lookup_success_witness :
  fst (get_coordinates_for_store service_found gare_store (Some (cps "key"))
         fresh_world)
  = Ok {| latitude := JFloat 93 (-1); longitude := JFloat 53 (-3) |}.
Proof.
  refine (f_equal fst (lookup_success service_found gare_store 107 (cps "ey") fresh_world
             [ (cps "status", JStr (cps "OK"));
               (cps "results",
                JList [ JDict [ (cps "geometry",
                                 JDict [ (cps "location",
                                          JDict [ (cps "lat", JFloat 93 (-1));
                                                  (cps "lng", JFloat 53 (-3)) ]);
                                         (cps "location_type",
                                          JStr (cps "ROOFTOP")) ]) ] ]) ]
             [ (cps "geometry",
                JDict [ (cps "location",
                         JDict [ (cps "lat", JFloat 93 (-1));
                                 (cps "lng", JFloat 53 (-3)) ]);
                        (cps "location_type", JStr (cps "ROOFTOP")) ]) ]
             [ (cps "location",
                JDict [ (cps "lat", JFloat 93 (-1)); (cps "lng", JFloat 53 (-3)) ]);
               (cps "location_type", JStr (cps "ROOFTOP")) ]
             [ (cps "lat", JFloat 93 (-1)); (cps "lng", JFloat 53 (-3)) ]
             [] (JFloat 93 (-1)) (JFloat 53 (-3)) _ _ _ _ _ _ _ _ _));
    try reflexivity.
  discriminate.
Defined.

(** X10, witness. *)
Lemma transform_stores_output_witness :
  exists stores',
    out_stores (snd (transform_stores lower_latin1 service_found cached_world))
    = Holds stores'
    /\ length stores' = 2%nat.
Proof.
  destruct (transform_stores_output lower_latin1 service_found cached_world
              [lac_store; gare_store] eq_refl eq_refl)
    as (stores' & Hout & Hall).
  exists stores'. split; [exact Hout|].
  apply Forall2_length in Hall. symmetry. exact Hall.
Defined.

(** X11, witness. *)
Lemma transform_store_idempotent_witness :
  exists st',
    fst (transform_store lower_latin1 service_found gare_store cached_world)
    = Ok st'
    /\ transform_store lower_latin1 service_found st' cached_world
       = (Ok st', cached_world).
Proof.
  eexists. split; [reflexivity|].
  apply (proj1 (transform_store_idempotent lower_latin1 service_found
                  cached_world) gare_store).
  reflexivity.
Defined.

(** X17, witness: two records with different keys, in both orders. *)
Lemma retailer_prices_order_independent_witness :
  retailer_prices lower_latin1 [coop_12_p1; aldi_3_p9] ∅ (cps "t")
  = retailer_prices lower_latin1 [aldi_3_p9; coop_12_p1] ∅ (cps "t").
Proof.
  apply retailer_prices_order_independent; [|apply perm_swap].
  constructor; [|constructor; [intros []|constructor]].
  intros [H|[]]. vm_compute in H. discriminate H.
Defined.

(** X19, witness. *)
Lemma transform_products_output_witness :
  exists ps ps',
    in_products sample_disk = Holds ps
    /\ out_products (snd (transform_products sample_disk)) = Holds ps'
    /\ length ps = length ps'.
Proof.
  destruct (transform_products_output sample_disk eq_refl)
    as (ps & ps' & Hin & Hout & Hall).
  exists ps, ps'. split; [exact Hin|]. split; [exact Hout|].
  exact (Forall2_length _ _ _ Hall).
Defined.

(** X12, witness: the second store meets a cached text; nothing is
    written. *)
Lemma transform_stores_failure_witness :
  transform_stores lower_latin1 service_found world_with_text_entry
  = (Raise AttributeError,
     with_cache {[ lac_address := JStr (cps "pending") ]} world_with_text_entry)
  /\ out_stores
       (snd (transform_stores lower_latin1 service_found world_with_text_entry))
     = Absent.
Proof.
  assert (H : transform_stores lower_latin1 service_found world_with_text_entry
              = (Raise AttributeError,
                 with_cache {[ lac_address := JStr (cps "pending") ]}
                   world_with_text_entry)).
  { apply (proj1 (transform_stores_failure lower_latin1 service_found
                    world_with_text_entry)).
    apply Exists_cons_tl, Exists_cons_hd.
    split; [discriminate|].
    exists (JStr (cps "pending")). split; [now vm_compute | discriminate]. }
  split; [exact H | now rewrite H].
Defined.

(** X20, witness: a product named by a number stops phase 1 before the
    write; a name with a lone surrogate stops it in the write, and the
    product output of the earlier run is lost. *)
Lemma transform_products_failure_witness :
  fst (transform_products disk_with_numeric_name) = Raise AttributeError
  /\ fst (transform_products disk_with_numeric_name) <> Ok tt
  /\ transform_products disk_with_lone_surrogate
     = (Raise UnicodeEncodeError,
        with_truncated_out_products disk_with_lone_surrogate)
  /\ out_products (snd (transform_products disk_with_lone_surrogate))
     = Malformed.
Proof.
  split; [reflexivity|]. split.
  { apply (proj1 (transform_products_failure disk_with_numeric_name)).
    constructor. left. reflexivity. }
  assert (H : transform_products disk_with_lone_surrogate
              = (Raise UnicodeEncodeError,
                 with_truncated_out_products disk_with_lone_surrogate)).
  { eapply (proj2 (proj2 (proj2
              (transform_products_failure disk_with_lone_surrogate)))
              [torn_row]).
    - reflexivity.
    - exact I.
    - reflexivity.
    - reflexivity.
    - reflexivity. }
  split; [exact H | now rewrite H].
Defined.

(** X21, witness. *)
Lemma transform_discounts_output_witness :
  exists ds',
    out_discounts (snd (transform_discounts sample_disk)) = Holds ds'
    /\ length ds' = 1%nat.
Proof.
  destruct (transform_discounts_output sample_disk [oeufs_discount]
              eq_refl eq_refl) as (ds' & Hout & Hall).
  exists ds'. split; [exact Hout|].
  symmetry. exact (Forall2_length _ _ _ Hall).
Defined.

(** X22, witness. *)
Lemma transform_discounts_idempotent_witness :
  transform_discounts (snd (transform_discounts sample_disk))
  = (Ok tt, snd (transform_discounts sample_disk)).
Proof.
  exact (transform_discounts_idempotent sample_disk eq_refl).
Defined.

(** X23, witness: a discount named with a lone surrogate stops phase 4
    in the write, and the discounts file is lost. *)
Lemma transform_discounts_absent_witness :
  transform_discounts disk_with_lone_surrogate
  = (Raise UnicodeEncodeError,
     with_truncated_out_discounts disk_with_lone_surrogate)
  /\ out_discounts (snd (transform_discounts disk_with_lone_surrogate))
     = Malformed.
Proof.
  assert (H : transform_discounts disk_with_lone_surrogate
              = (Raise UnicodeEncodeError,
                 with_truncated_out_discounts disk_with_lone_surrogate)).
  { eapply (proj2 (proj2 (transform_discounts_absent disk_with_lone_surrogate))
              [torn_discount]).
    - reflexivity.
    - reflexivity.
    - reflexivity.
    - reflexivity. }
  split; [exact H | now rewrite H].
Defined.


(** X25, witness. *)
Lemma main_completes_witness :
  exists ps' products,
    out_products
      (sys_disk (snd (main lower_latin1 service_found (cps "t") sample_system)))
    = Holds ps'
    /\ for_each_result as_product ps' = Ok products
    /\ out_retailer_prices
         (sys_disk (snd (main lower_latin1 service_found (cps "t")
                           sample_system)))
       = Holds (transform_retailer_prices lower_latin1
                  [coop_12_p1; coop_77_p1] products (cps "t")).
Proof.
  destruct (main_completes lower_latin1 service_found (cps "t") sample_system
              eq_refl)
    as (ps & ps' & inventory & products & _ & Hinv & _ & Hprod & _ & Hout
        & Hprices & _).
  assert (inventory = [coop_12_p1; coop_77_p1]) as -> by
    (cbn in Hinv; congruence).
  exists ps', products. split; [exact Hout|]. split; [exact Hprod|].
  exact Hprices.
Defined.

(** X27, witness. *)
Lemma main_without_products_witness :
  fst (main lower_latin1 service_found (cps "t") system_without_products)
  = Raise FileNotFoundError
  /\ out_retailers
       (sys_disk (snd (main lower_latin1 service_found (cps "t")
                         system_without_products)))
     = Holds retailers
  /\ out_stores
       (sys_world (snd (main lower_latin1 service_found (cps "t")
                          system_without_products)))
     = Absent.
Proof.
  rewrite (main_without_products lower_latin1 service_found (cps "t")
             system_without_products eq_refl eq_refl).
  repeat split.
Defined.
